(** * agent_orchestrator.py: task lifecycle of the Agent Cluster orchestrator

    A shallow embedding of [src/agent_orchestrator.py]: the [Task] record,
    the [AgentOrchestrator] methods ([select_agent], [create_task],
    [start_task], [check_task_status], [stop_task], [delete_task]) and the
    module-level table [RUNNING_AGENTS], followed by the properties of the
    task lifecycle.

    Conventions of the embedding.
    - A Python [str] is the list of its code points ([pystr]); literals of
      the source are written [py "..."] and decoded from UTF-8.
    - The dictionaries [self.tasks] and [RUNNING_AGENTS] are [gmap]s keyed by
      task id; the order of keys inside [tasks.json] is not represented.
    - Everything outside the Python process (file system, subprocesses, wall
      clock, uuid generator) is an oracle [Env] consulted by the operations;
      every external call is appended to the [trace] of the state.  The
      texts written to the prompt and launcher files are not represented.
    - Writing [tasks.json] is taken to succeed: [_save_tasks] replaces the
      content of the record file by the current mapping.
    - The four status strings and the three keys of [AGENTS_CONFIG] are
      inductive types; [status_str] and [agent_key] give the source strings. *)

From Stdlib Require Import ZArith NArith Lia Ascii.
From stdpp Require Import base option list strings gmap fin_maps.

Local Open Scope N_scope.

(** ** Python strings *)

Abbreviation pystr := (list N).

(** Decoding of a UTF-8 byte sequence (1 to 4 byte forms) into code points. *)
Fixpoint utf8_decode (bs : list N) : pystr :=
  match bs with
  | [] => []
  | b0 :: r0 =>
    if b0 <? 128 then b0 :: utf8_decode r0
    else if b0 <? 224 then
      match r0 with
      | b1 :: r1 => ((b0 - 192) * 64 + (b1 - 128)) :: utf8_decode r1
      | [] => [b0]
      end
    else if b0 <? 240 then
      match r0 with
      | b1 :: b2 :: r2 =>
          ((b0 - 224) * 4096 + (b1 - 128) * 64 + (b2 - 128)) :: utf8_decode r2
      | _ => [b0]
      end
    else
      match r0 with
      | b1 :: b2 :: b3 :: r3 =>
          ((b0 - 240) * 262144 + (b1 - 128) * 4096 + (b2 - 128) * 64 + (b3 - 128))
            :: utf8_decode r3
      | _ => [b0]
      end
  end.

Fixpoint string_bytes (s : string) : list N :=
  match s with
  | EmptyString => []
  | String a r => N_of_ascii a :: string_bytes r
  end.

(** A string literal of the source. *)
Definition py (s : string) : pystr := utf8_decode (string_bytes s).

(** [s.startswith(p)]. *)
Fixpoint startswith (p s : pystr) : bool :=
  match p, s with
  | [], _ => true
  | _ :: _, [] => false
  | a :: p', b :: s' => (a =? b) && startswith p' s'
  end.

(** [kw in s]: [kw] occurs in [s] as a contiguous substring. *)
Fixpoint str_in (kw s : pystr) : bool :=
  startswith kw s ||
  match s with
  | [] => false
  | _ :: s' => str_in kw s'
  end.

(** [s.replace(old, new)] for one-character [old] and [new]. *)
Definition replace_char (old new : N) (s : pystr) : pystr :=
  map (fun c => if c =? old then new else c) s.

(** [s[:n]]. *)
Definition slice_to (n : nat) (s : pystr) : pystr := take n s.

Definition is_ascii_upper (c : N) : bool := (65 <=? c) && (c <=? 90).

(** The CJK Unified Ideographs block U+4E00..U+9FFF: no character of it has
    a case mapping. *)
Definition is_cjk (c : N) : bool := (19968 <=? c) && (c <=? 40959).

Section Lower.

(** [str.lower] follows the Unicode case tables, which are not reproduced
    here: [lower_ext before c after] stands for the lowercase expansion of a
    code point [c >= 128] outside the CJK block, in its context (the
    context matters for the final-sigma rule). *)
Variable lower_ext : pystr -> N -> pystr -> pystr.

Definition lower_cp (before : pystr) (c : N) (after : pystr) : pystr :=
  if c <? 128 then [if is_ascii_upper c then c + 32 else c]
  else if is_cjk c then [c]
  else lower_ext before c after.

Fixpoint lower_at (before s : pystr) : pystr :=
  match s with
  | [] => []
  | c :: r => lower_cp before c r ++ lower_at (before ++ [c]) r
  end.

(** [s.lower()]. *)
Definition lower (s : pystr) : pystr := lower_at [] s.

(** The lowercase form of [s], character by character. *)
Fixpoint lower_pieces (before s : pystr) : list pystr :=
match s with
| [] => []
| c :: r => lower_cp before c r :: lower_pieces (before ++ [c]) r
end.

End Lower.

(** ** Data model *)

(** Values of [Task.status]. *)
Inductive Status := pending | running | completed | failed.

Definition status_str (s : Status) : pystr :=
  match s with
  | pending => py "pending"
  | running => py "running"
  | completed => py "completed"
  | failed => py "failed"
  end.

(** Keys of [AGENTS_CONFIG]. *)
Inductive AgentType := codex | claude | glm.

Definition agent_key (a : AgentType) : pystr :=
  match a with
  | codex => py "codex"
  | claude => py "claude"
  | glm => py "glm"
  end.

Record AgentConfig := mkAgentConfig {
  name : pystr;
  model : pystr;
  use_case : pystr;
  priority : Z;
  command : pystr
}.

Definition AGENTS_CONFIG (a : AgentType) : AgentConfig :=
  match a with
  | codex => mkAgentConfig (py "Codex") (py "gpt-5.3-codex")
               (py "后端逻辑、复杂bug、多文件重构、跨代码库推理") 90 (py "claude-code")
  | claude => mkAgentConfig (py "Claude Code") (py "claude-opus-4.5")
               (py "前端工作、权限问题少、git操作") 80 (py "claude")
  | glm => mkAgentConfig (py "GLM-5") (py "glm-5")
               (py "中文任务、免费替代方案") 70 (py "glm")
  end.

(** The dataclass [Task].  [started_at] and [completed_at] hold the instant
    that [datetime.now()] returned; the ISO rendering is not represented. *)
Record Task := mkTask {
  id : pystr;
  description : pystr;
  agent_type : AgentType;
  branch : pystr;
  status : Status;
  started_at : option Z;
  completed_at : option Z;
  error : option pystr;
  pr_url : option pystr
}.

Definition set_status (s : Status) (t : Task) : Task :=
  mkTask (id t) (description t) (agent_type t) (branch t) s
         (started_at t) (completed_at t) (error t) (pr_url t).

Definition set_started_at (ts : option Z) (t : Task) : Task :=
  mkTask (id t) (description t) (agent_type t) (branch t) (status t)
         ts (completed_at t) (error t) (pr_url t).

Definition set_completed_at (ts : option Z) (t : Task) : Task :=
  mkTask (id t) (description t) (agent_type t) (branch t) (status t)
         (started_at t) ts (error t) (pr_url t).

Definition set_error (e : option pystr) (t : Task) : Task :=
  mkTask (id t) (description t) (agent_type t) (branch t) (status t)
         (started_at t) (completed_at t) e (pr_url t).

(** A [pathlib.Path], kept as the expression that built it: [p // s] is the
    source's [p / s]. *)
Inductive Path :=
  | PathOf (s : pystr)
  | PathDiv (p : Path) (s : pystr).

Infix "//" := PathDiv (at level 40, left associativity).

(** A [subprocess.Popen] handle. *)
Record Popen := mkPopen { pid : Z }.

(** What an external call does: it returns, or it raises an [Exception]
    whose [str(e)] is [msg]. *)
Inductive Outcome (A : Type) :=
  | Returns (a : A)
  | Raises (msg : pystr).
Arguments Returns {A} a.
Arguments Raises {A} msg.

(** Commands given to [subprocess.run]. *)
Inductive Cmd :=
  | GitWorktreeAdd (path : Path) (branch_name : pystr)
  | NpmInstall
  | MvnCompile
  | PipInstallRequirements
  | GoModDownload.

(** External calls, in the order they are made.  An event says that the
    call was made, not that it succeeded: [EvRun], [EvPopen] and the others
    are recorded also when the call raises.  [EvKillpg pid] stands for the
    evaluation of [os.killpg(os.getpgid(pid), signal.SIGTERM)]; a signal is
    sent only when that expression returns. *)
Inductive Event :=
  | EvMkdir (p : Path)
  | EvRun (c : Cmd) (cwd : Path)
  | EvWriteText (p : Path)
  | EvChmod (p : Path)
  | EvOpenLog (p : Path)
  | EvPopen (script cwd : Path)
  | EvKillpg (pgid_of : Z).

(** The world outside the interpreter, as seen by one operation.  [killpg
    pid] is the outcome of [os.killpg(os.getpgid(pid), signal.SIGTERM)]: it
    is [Raises] when [os.getpgid] or [os.killpg] raises, and then no signal
    was delivered. *)
Record Env := mkEnv {
  path_exists : Path -> bool;
  subprocess_run : Cmd -> Path -> Outcome Z;
  write_text : Path -> Outcome unit;
  chmod : Path -> Outcome unit;
  open_log : Path -> Outcome unit;
  Popen_spawn : Path -> Path -> Outcome Z;
  killpg : Z -> Outcome unit;
  proc_poll : Z -> option Z;
  datetime_now : Z;
  uuid4_hex8 : pystr
}.

(** Content of [tasks.json], a regular file that can be written:
    [Unreadable] is a content that [json.load] or the constructor of [Task]
    rejects. *)
Inductive FileContent :=
  | NoFile
  | Unreadable
  | Records (m : gmap pystr Task).

(** The orchestrator object together with the module global
    [RUNNING_AGENTS], the record file and the external calls made so far. *)
Record State := mkState {
  workspace : Path;
  tasks : gmap pystr Task;
  RUNNING_AGENTS : gmap pystr Popen;
  tasks_file : FileContent;
  trace : list Event
}.

Definition set_tasks (m : gmap pystr Task) (st : State) : State :=
  mkState (workspace st) m (RUNNING_AGENTS st) (tasks_file st) (trace st).

Definition set_RUNNING_AGENTS (r : gmap pystr Popen) (st : State) : State :=
  mkState (workspace st) (tasks st) r (tasks_file st) (trace st).

Definition set_tasks_file (f : FileContent) (st : State) : State :=
  mkState (workspace st) (tasks st) (RUNNING_AGENTS st) f (trace st).

Definition add_trace (evs : list Event) (st : State) : State :=
  mkState (workspace st) (tasks st) (RUNNING_AGENTS st) (tasks_file st)
          (trace st ++ evs).

Definition emit (ev : Event) (st : State) : State := add_trace [ev] st.

(** Assignment to an attribute of the [Task] object stored under [task_id]:
    the local variable [task] of the methods aliases that object. *)
Definition update_task (task_id : pystr) (f : Task -> Task) (st : State) : State :=
  set_tasks (alter f task_id (tasks st)) st.

(** ** Code that may raise: state and exception *)

Definition M (A : Type) : Type := State -> Outcome A * State.

#[export] Instance M_ret : MRet M := fun A a st => (Returns a, st).

#[export] Instance M_bind : MBind M := fun A B k m st =>
  match m st with
  | (Returns a, st') => k a st'
  | (Raises e, st') => (Raises e, st')
  end.

(** An external call: recorded, then its outcome. *)
Definition external {A} (ev : Event) (o : Outcome A) : M A :=
  fun st => (o, emit ev st).

Definition modify (f : State -> State) : M unit :=
  fun st => (Returns tt, f st).

(** The view returned by [check_task_status]. *)
Record TaskView := mkTaskView {
  view_id : pystr;
  view_description : pystr;
  view_agent : AgentType;
  view_agent_name : pystr;
  view_branch : pystr;
  view_status : Status;
  view_started_at : option Z;
  view_completed_at : option Z;
  view_error : option pystr;
  view_pr_url : option pystr
}.

Inductive StatusResult :=
  | TaskNotFound
  | TaskInfo (v : TaskView).

(** ** The orchestrator *)

Definition dirs : list pystr :=
  [py ".agent-cluster"; py ".agent-cluster/logs"; py ".agent-cluster/worktrees";
   py ".agent-cluster/scripts"; py ".agent-cluster/prompts"].

Definition _load_tasks (f : FileContent) : gmap pystr Task :=
  match f with
  | Records m => m
  | NoFile | Unreadable => ∅
  end.

Definition _ensure_dirs (ws : Path) : list Event :=
  map (fun d => EvMkdir (ws // d)) dirs.

(** [AgentOrchestrator(workspace)] in a fresh interpreter, where
    [RUNNING_AGENTS] is empty: the record file and the trace are what the
    previous process left. *)
Definition init (ws : Path) (f : FileContent) (tr : list Event) : State :=
  mkState ws (_load_tasks f) ∅ f (tr ++ _ensure_dirs ws).

(** The process ends and a new one builds the orchestrator again. *)
Definition restart (st : State) : State :=
  init (workspace st) (tasks_file st) (trace st).

Definition _save_tasks (st : State) : State :=
  set_tasks_file (Records (tasks st)) st.

Definition worktree_path (ws : Path) (t : Task) : Path :=
  ws // py ".agent-cluster" // py "worktrees" // replace_char 47 95 (branch t).

Definition make_view (t : Task) : TaskView :=
  mkTaskView (id t) (description t) (agent_type t)
             (name (AGENTS_CONFIG (agent_type t))) (branch t) (status t)
             (started_at t) (completed_at t) (error t) (pr_url t).

Definition _install_deps (env : Env) (wt : Path) : M unit :=
  if path_exists env (wt // py "package.json") then
    external (EvRun NpmInstall wt) (subprocess_run env NpmInstall wt) ;; mret tt
  else if path_exists env (wt // py "pom.xml") then
    external (EvRun MvnCompile wt) (subprocess_run env MvnCompile wt) ;; mret tt
  else if path_exists env (wt // py "requirements.txt") then
    external (EvRun PipInstallRequirements wt)
             (subprocess_run env PipInstallRequirements wt) ;; mret tt
  else if path_exists env (wt // py "go.mod") then
    external (EvRun GoModDownload wt) (subprocess_run env GoModDownload wt) ;; mret tt
  else mret tt.

Definition _start_agent (env : Env) (task : Task) (wt prompt_file : Path) : M Z :=
  fun st =>
    let ws := workspace st in
    let log_file := ws // py ".agent-cluster" // py "logs" // (id task ++ py ".log") in
    let script_file := ws // py ".agent-cluster" // py "scripts" // (id task ++ py ".sh") in
    (external (EvWriteText script_file) (write_text env script_file) ;;
     external (EvChmod script_file) (chmod env script_file) ;;
     external (EvOpenLog log_file) (open_log env log_file) ;;
     p ← external (EvPopen script_file wt) (Popen_spawn env script_file wt) ;
     modify (fun s => set_RUNNING_AGENTS (<[id task := mkPopen p]> (RUNNING_AGENTS s)) s) ;;
     mret p) st.

(** [task.status = "running"; task.started_at = datetime.now().isoformat()]. *)
Definition mark_running (now : Z) (t : Task) : Task :=
  set_started_at (Some now) (set_status running t).

(** [task.status = "failed"; task.error = ...]. *)
Definition mark_failed (e : pystr) (t : Task) : Task :=
  set_error (Some e) (set_status failed t).

(** The [try] block of [start_task]. *)
Definition start_body (env : Env) (task_id : pystr) (task : Task) : M Z :=
  fun st =>
    let ws := workspace st in
    let wt := worktree_path ws task in
    let prompt_file := ws // py ".agent-cluster" // py "prompts" // (task_id ++ py ".md") in
    ((if negb (path_exists env wt) then
        external (EvRun (GitWorktreeAdd wt (branch task)) ws)
                 (subprocess_run env (GitWorktreeAdd wt (branch task)) ws) ;; mret tt
      else mret tt) ;;
     _install_deps env wt ;;
     external (EvWriteText prompt_file) (write_text env prompt_file) ;;
     p ← _start_agent env task wt prompt_file ;
     modify (update_task task_id (mark_running (datetime_now env))) ;;
     modify _save_tasks ;;
     mret p) st.

(** The state after a successful [try] block. *)
Definition started (env : Env) (k : pystr) (task : Task) (p : Z)
           (evs : list Event) (st : State) : State :=
  _save_tasks
    (update_task k (mark_running (datetime_now env))
       (set_RUNNING_AGENTS (<[id task := mkPopen p]> (RUNNING_AGENTS st))
          (add_trace evs st))).

(** [start_task(task_id, base_branch="main")]; the source never reads
    [base_branch], the worktree is always added from [HEAD]. *)
Definition start_task (env : Env) (task_id : pystr) (st : State) : bool * State :=
  match tasks st !! task_id with
  | None => (false, st)
  | Some task =>
    match start_body env task_id task st with
    | (Returns _, st') => (true, st')
    | (Raises e, st') =>
        (false, _save_tasks (update_task task_id (mark_failed e) st'))
    end
  end.

(** The transition made by [check_task_status] when the polled process has
    ended. *)
Definition mark_completed (now : Z) (t : Task) : Task :=
  set_completed_at (Some now) (set_status completed t).

Definition check_task_status (env : Env) (task_id : pystr) (st : State)
  : StatusResult * State :=
  match tasks st !! task_id with
  | None => (TaskNotFound, st)
  | Some task =>
    match status task, RUNNING_AGENTS st !! task_id with
    | running, Some proc =>
      match proc_poll env (pid proc) with
      | Some _ =>
          (TaskInfo (make_view (mark_completed (datetime_now env) task)),
           _save_tasks
             (set_RUNNING_AGENTS (delete task_id (RUNNING_AGENTS st))
                (update_task task_id (mark_completed (datetime_now env)) st)))
      | None => (TaskInfo (make_view task), st)
      end
    | _, _ => (TaskInfo (make_view task), st)
    end
  end.

(** The [try] block of [stop_task] ends with [_save_tasks], which is taken
    to succeed (see the conventions): the bare [except] is reached from the
    signalling call only. *)
Definition stop_task (env : Env) (task_id : pystr) (st : State) : bool * State :=
  match tasks st !! task_id with
  | None => (false, st)
  | Some task =>
    match RUNNING_AGENTS st !! task_id with
    | Some proc =>
      match killpg env (pid proc) with
      | Returns _ =>
          (true, _save_tasks
                   (set_RUNNING_AGENTS (delete task_id (RUNNING_AGENTS st))
                      (update_task task_id (mark_failed (py "Stopped by user"))
                         (emit (EvKillpg (pid proc)) st))))
      | Raises _ => (false, emit (EvKillpg (pid proc)) st)
      end
    | None => (false, st)
    end
  end.

Definition delete_task (env : Env) (task_id : pystr) (st : State) : bool * State :=
  match tasks st !! task_id with
  | Some _ =>
      let st1 := snd (stop_task env task_id st) in
      (true, _save_tasks (set_tasks (delete task_id (tasks st1)) st1))
  | None => (false, st)
  end.

Section Selector.

Variable lower_ext : pystr -> N -> pystr -> pystr.

Definition select_agent (task_description : pystr) : AgentType :=
  let task_lower := lower lower_ext task_description in
  if existsb (fun kw => str_in kw task_lower)
       [py "frontend"; py "ui"; py "界面"; py "前端"; py "react"; py "vue"]
  then claude
  else if existsb (fun kw => str_in kw task_lower)
       [py "backend"; py "后端"; py "api"; py "database"; py "数据库"]
  then codex
  else if existsb (fun kw => str_in kw task_lower)
       [py "cn"; py "中文"; py "china"]
  then glm
  else codex.

(** [branch] is [None] or a string; [not branch] holds for [None] and for
    the empty string. *)
Definition create_task (env : Env) (description : pystr) (branch : option pystr)
           (st : State) : Task * State :=
  let task_id := py "task-" ++ uuid4_hex8 env in
  let branch' :=
    match branch with
    | Some (c :: b) => c :: b
    | Some [] | None =>
        let branch_name := lower lower_ext (replace_char 32 45 (slice_to 30 description)) in
        py "feat/" ++ branch_name
    end in
  let agent := select_agent description in
  let task := mkTask task_id description agent branch' pending None None None None in
  (task, _save_tasks (set_tasks (<[task_id := task]> (tasks st)) st)).

End Selector.

(** The event of a [git worktree add]. *)
Definition is_worktree_add (ev : Event) : bool :=
  match ev with
  | EvRun (GitWorktreeAdd _ _) _ => true
  | _ => false
  end.

Definition no_worktree_add (evs : list Event) : bool :=
  forallb (λ ev, negb (is_worktree_add ev)) evs.

(** The same world, except that [git worktree add] has outcome [o]. *)
Definition with_git_outcome (o : Outcome Z) (env : Env) : Env :=
  mkEnv (path_exists env)
        (fun c cwd => match c with
                      | GitWorktreeAdd _ _ => o
                      | _ => subprocess_run env c cwd
                      end)
        (write_text env) (chmod env) (open_log env) (Popen_spawn env)
        (killpg env) (proc_poll env) (datetime_now env) (uuid4_hex8 env).

(** ** Runs of the controller *)

(** The commands of the controller.  [list_tasks] calls [check_task_status]
    on every id of the store in turn: it is a sequence of [OpStatus]. *)
Inductive Op :=
  | OpCreate (description : pystr) (branch : option pystr)
  | OpStart (task_id : pystr)
  | OpStatus (task_id : pystr)
  | OpStop (task_id : pystr)
  | OpDelete (task_id : pystr)
  | OpRestart.

(** Every record is stored under its own id. *)
Definition keys_match (m : gmap pystr Task) : Prop :=
  ∀ k t, m !! k = Some t → id t = k.

(** The in-memory mapping is what a reload of the record file gives. *)
Definition persisted (st : State) : Prop :=
  _load_tasks (tasks_file st) = tasks st.

(** The invariant of the data model: an entry of the live-process table
    belongs to an existing record whose status is [running]. *)
Definition tracked_running (st : State) : Prop :=
  ∀ k p, RUNNING_AGENTS st !! k = Some p →
         ∃ t, tasks st !! k = Some t ∧ status t = running.

(** What holds of every entry whose record exists: the task was started,
    at an instant that satisfies [P], and it is running or failed. *)
Definition tracked_started (P : Z → Prop) (st : State) : Prop :=
  ∀ k p t, RUNNING_AGENTS st !! k = Some p → tasks st !! k = Some t →
           (status t = running ∨ status t = failed) ∧
           ∃ s, started_at t = Some s ∧ P s.

(** The state after the transition of [check_task_status]. *)
Definition completed_state (now : Z) (k : pystr) (st : State) : State :=
  _save_tasks
    (set_RUNNING_AGENTS (delete k (RUNNING_AGENTS st))
       (update_task k (mark_completed now) st)).

(** The state after a successful [stop_task]. *)
Definition stopped_state (k : pystr) (proc : Popen) (st : State) : State :=
  _save_tasks
    (set_RUNNING_AGENTS (delete k (RUNNING_AGENTS st))
       (update_task k (mark_failed (py "Stopped by user"))
          (emit (EvKillpg (pid proc)) st))).

Definition terminal (s : Status) : Prop := s = completed ∨ s = failed.

(** The entries of the live-process table that belong to task [k]. *)
Definition entries_of (k : pystr) (st : State) : list (pystr * Popen) :=
  filter (λ kp, kp.1 = k) (map_to_list (RUNNING_AGENTS st)).

Definition initial (st : State) : Prop :=
  ∃ ws f tr, st = init ws f tr ∧ keys_match (_load_tasks f).

Section Runs.

Variable lower_ext : pystr -> N -> pystr -> pystr.

Definition step (env : Env) (op : Op) (st : State) : State :=
  match op with
  | OpCreate d b => snd (create_task lower_ext env d b st)
  | OpStart k => snd (start_task env k st)
  | OpStatus k => snd (check_task_status env k st)
  | OpStop k => snd (stop_task env k st)
  | OpDelete k => snd (delete_task env k st)
  | OpRestart => restart st
  end.

(** [uuid4] gives an id that was never issued before: no record and no
    table entry carries it. *)
Definition op_ok (env : Env) (op : Op) (st : State) : Prop :=
  match op with
  | OpCreate _ _ =>
      tasks st !! (py "task-" ++ uuid4_hex8 env) = None ∧
      RUNNING_AGENTS st !! (py "task-" ++ uuid4_hex8 env) = None
  | _ => True
  end.

Inductive reachable : State → Prop :=
  | reachable_init st : initial st → reachable st
  | reachable_step st env op :
      reachable st → op_ok env op st → reachable (step env op st).

(** Runs in which the wall clock is never set back: [clocked c st] holds
    when [st] is reached by a run whose clock readings never decrease and
    whose last reading is [c] (any [c] for a state just built). *)
Inductive clocked : Z → State → Prop :=
  | clocked_init c st : initial st → clocked c st
  | clocked_step c st env op :
      clocked c st → (c ≤ datetime_now env)%Z → op_ok env op st →
      clocked (datetime_now env) (step env op st).

(** A sequence of operations, each in the world it meets. *)
Fixpoint run (l : list (Env * Op)) (st : State) : State :=
  match l with
  | [] => st
  | (env, op) :: r => run r (step env op st)
  end.

Fixpoint run_ok (l : list (Env * Op)) (st : State) : Prop :=
  match l with
  | [] => True
  | (env, op) :: r => op_ok env op st ∧ run_ok r (step env op st)
  end.

End Runs.


(** ** The selection rule in the words of the specification *)

(** Keyword sets in priority order: frontend/UI, backend/data, locale. *)
Definition keyword_rules : list (list pystr * AgentType) :=
  [ ([py "frontend"; py "ui"; py "界面"; py "前端"; py "react"; py "vue"], claude);
    ([py "backend"; py "后端"; py "api"; py "database"; py "数据库"], codex);
    ([py "cn"; py "中文"; py "china"], glm) ].

Definition matches (kws : list pystr) (text : pystr) : bool :=
  existsb (fun kw => str_in kw text) kws.

(** First match wins; no match gives the default profile. *)
Definition first_match (rules : list (list pystr * AgentType)) (default : AgentType)
           (text : pystr) : AgentType :=
  match find (fun r => matches (fst r) text) rules with
  | Some r => snd r
  | None => default
  end.

Definition frontend_keywords : list pystr :=
  [py "frontend"; py "ui"; py "界面"; py "前端"; py "react"; py "vue"].

Definition backend_keywords : list pystr :=
  [py "backend"; py "后端"; py "api"; py "database"; py "数据库"].

(** Characters that [str.lower] leaves as they are, whatever the case table
    says elsewhere: ASCII other than A-Z, and CJK ideographs. *)
Definition keeps_case (c : N) : bool :=
  (c <? 128) && negb (is_ascii_upper c) || is_cjk c.

(** ** Concrete worlds and runs *)

(** A case table that leaves the characters it is asked about unchanged. *)
Definition lower_plain : pystr -> N -> pystr -> pystr := fun _ c _ => [c].

(** A world in which every external call succeeds, no directory or manifest
    exists yet, and the spawned process is still alive. *)
Definition env_ok : Env :=
  mkEnv (fun _ => false) (fun _ _ => Returns 0%Z) (fun _ => Returns tt)
        (fun _ => Returns tt) (fun _ => Returns tt) (fun _ _ => Returns 4242%Z)
        (fun _ => Returns tt) (fun _ => None) 100%Z (py "0a1b2c3d").

Definition with_now (now : Z) (env : Env) : Env :=
  mkEnv (path_exists env) (subprocess_run env) (write_text env) (chmod env)
        (open_log env) (Popen_spawn env) (killpg env) (proc_poll env) now
        (uuid4_hex8 env).

Definition with_poll (r : option Z) (env : Env) : Env :=
  mkEnv (path_exists env) (subprocess_run env) (write_text env) (chmod env)
        (open_log env) (Popen_spawn env) (killpg env) (fun _ => r)
        (datetime_now env) (uuid4_hex8 env).

Definition with_write_text (o : Outcome unit) (env : Env) : Env :=
  mkEnv (path_exists env) (subprocess_run env) (fun _ => o) (chmod env)
        (open_log env) (Popen_spawn env) (killpg env) (proc_poll env)
        (datetime_now env) (uuid4_hex8 env).

Definition with_killpg (o : Outcome unit) (env : Env) : Env :=
  mkEnv (path_exists env) (subprocess_run env) (write_text env) (chmod env)
        (open_log env) (Popen_spawn env) (fun _ => o) (proc_poll env)
        (datetime_now env) (uuid4_hex8 env).

Definition with_path_exists (b : bool) (env : Env) : Env :=
  mkEnv (fun _ => b) (subprocess_run env) (write_text env) (chmod env)
        (open_log env) (Popen_spawn env) (killpg env) (proc_poll env)
        (datetime_now env) (uuid4_hex8 env).

Definition ws0 : Path := PathOf (py "/workspace/agent").

Definition k0 : pystr := py "task-0a1b2c3d".

(** A new workspace. *)
Definition st_init : State := init ws0 NoFile [].

(** After [create "fix database timeout bug"]. *)
Definition st_created : State :=
  snd (create_task lower_plain env_ok (py "fix database timeout bug") None st_init).

(** After a successful [start]. *)
Definition st_running : State := snd (start_task env_ok k0 st_created).

(** The disk is full: every [write_text] raises. *)
Definition env_disk_full : Env :=
  with_write_text (Raises (py "[Errno 28] No space left on device")) env_ok.

(** A second [start] of the running task fails while writing the prompt. *)
Definition st_restart_failed : State := snd (start_task env_disk_full k0 st_running).

(** The process group is gone: [killpg] raises. *)
Definition env_group_gone : Env :=
  with_killpg (Raises (py "[Errno 3] No such process")) env_ok.

(** [delete] of the running task while its process group is gone. *)
Definition st_deleted_unstopped : State := snd (delete_task env_group_gone k0 st_running).

(** After [stop] of the running task. *)
Definition st_stopped : State := snd (stop_task env_ok k0 st_running).

(** The process has ended with return code 0 and the wall clock, read at the
    poll, shows an instant before the one read at the start (100). *)
Definition env_clock_set_back : Env := with_now 50%Z (with_poll (Some 0%Z) env_ok).

(** The process has ended and the clock has advanced. *)
Definition env_exited : Env := with_now 160%Z (with_poll (Some 0%Z) env_ok).

(** The record made by [create "fix database timeout bug"]. *)
Definition task0 : Task :=
  fst (create_task lower_plain env_ok (py "fix database timeout bug") None st_init).

(** Every path exists: the worktree directory, and a [package.json] in it. *)
Definition env_worktree_exists : Env := with_path_exists true env_ok.

Definition with_subprocess_run (o : Outcome Z) (env : Env) : Env :=
  mkEnv (path_exists env) (fun _ _ => o) (write_text env) (chmod env)
        (open_log env) (Popen_spawn env) (killpg env) (proc_poll env)
        (datetime_now env) (uuid4_hex8 env).

Definition with_Popen_spawn (o : Outcome Z) (env : Env) : Env :=
  mkEnv (path_exists env) (subprocess_run env) (write_text env) (chmod env)
        (open_log env) (fun _ _ => o) (killpg env) (proc_poll env)
        (datetime_now env) (uuid4_hex8 env).

(** No [git] executable: [subprocess.run] raises. *)
Definition env_no_git : Env :=
  with_subprocess_run (Raises (py "[Errno 2] No such file or directory: 'git'")) env_ok.

(** The worktree and a [package.json] exist, but there is no [npm]. *)
Definition env_no_npm : Env :=
  with_subprocess_run (Raises (py "[Errno 2] No such file or directory: 'npm'"))
    env_worktree_exists.

(** The launcher script cannot be executed. *)
Definition env_no_exec : Env :=
  with_Popen_spawn (Raises (py "[Errno 8] Exec format error")) env_ok.

(** ** Further functions and notions *)

(** [list_tasks]: [check_task_status] on every key of [self.tasks], in the
    order of the dictionary.  The mapping does not record that order, so it
    is the argument [order]; the call for [tid] meets the world [world tid]. *)
Fixpoint list_tasks (world : pystr -> Env) (order : list pystr) (st : State)
  : list StatusResult * State :=
  match order with
  | [] => ([], st)
  | tid :: rest =>
      let r1 := check_task_status (world tid) tid st in
      let r2 := list_tasks world rest (snd r1) in
      (fst r1 :: fst r2, snd r2)
  end.

(** [order] lists the keys of the store, each once. *)
Definition key_order (st : State) (order : list pystr) : Prop :=
  NoDup order ∧ ∀ k, k ∈ order ↔ is_Some (tasks st !! k).

(** The id that [create_task] gives in the world [env]. *)
Definition new_task_id (env : Env) : pystr := py "task-" ++ uuid4_hex8 env.

(** The task an operation is about. *)
Definition target (env : Env) (op : Op) : option pystr :=
  match op with
  | OpCreate _ _ => Some (new_task_id env)
  | OpStart k | OpStatus k | OpStop k | OpDelete k => Some k
  | OpRestart => None
  end.

(** The same world, with other return codes for the commands that
    [subprocess.run] completes. *)
Definition with_returncodes (f : Cmd -> Path -> Z) (env : Env) : Env :=
  mkEnv (path_exists env)
        (fun c cwd => match subprocess_run env c cwd with
                      | Returns _ => Returns (f c cwd)
                      | Raises e => Raises e
                      end)
        (write_text env) (chmod env) (open_log env) (Popen_spawn env)
        (killpg env) (proc_poll env) (datetime_now env) (uuid4_hex8 env).

Definition is_popen (ev : Event) : bool :=
  match ev with
  | EvPopen _ _ => true
  | _ => false
  end.

Definition no_popen (evs : list Event) : bool :=
  forallb (λ ev, negb (is_popen ev)) evs.

Definition is_run (ev : Event) : bool :=
  match ev with
  | EvRun _ _ => true
  | _ => false
  end.

(** The launcher script of a task. *)
Definition script_path (ws : Path) (t : Task) : Path :=
  ws // py ".agent-cluster" // py "scripts" // (id t ++ py ".sh").

(** How a record can differ from an earlier state of the same record. *)
Inductive evolves : Task -> Task -> Prop :=
  | evolves_refl t : evolves t t
  | evolves_running now t t' : evolves t t' -> evolves t (mark_running now t')
  | evolves_failed e t t' : evolves t t' -> evolves t (mark_failed e t')
  | evolves_completed now t t' : evolves t t' -> evolves t (mark_completed now t').

Definition locale_keywords : list pystr := [py "cn"; py "中文"; py "china"].

Definition ascii_lower (c : N) : N := if is_ascii_upper c then c + 32 else c.

(** Characters whose lowercase form does not depend on the case tables. *)
Definition plain_char (c : N) : bool := (c <? 128) || is_cjk c.

(** Equal up to the case of ASCII letters. *)
Definition same_modulo_case (d1 d2 : pystr) : Prop :=
  Forall2 (λ a b, ascii_lower a = ascii_lower b) d1 d2.

Fixpoint same_modulo_case_b (d1 d2 : pystr) : bool :=
  match d1, d2 with
  | [], [] => true
  | a :: r1, b :: r2 => (ascii_lower a =? ascii_lower b) && same_modulo_case_b r1 r2
  | _, _ => false
  end.

Definition is_status_or_stop (op : Op) : bool :=
  match op with
  | OpStatus _ | OpStop _ => true
  | _ => false
  end.

(** A store read from a record file that someone edited: the record of
    [task0] sits under another key. *)
Definition st_mismatched : State :=
  init ws0 (Records {[ py "task-ffffffff" := task0 ]}) [].

(** The text of the prompt after the second occurrence of the description:
    constraints and completion criteria, lines ended by the character 10. *)
Definition prompt_tail : pystr :=
  [10; 10] ++ py "## 约束" ++ [10] ++
  py "1. 保持代码风格一致" ++ [10] ++
  py "2. 添加必要的测试" ++ [10] ++
  py "3. 确保 CI 通过" ++ [10] ++
  py "4. 不要修改生产数据库相关代码" ++ [10; 10] ++
  py "## 完成标准" ++ [10] ++
  py "- [ ] 代码编写完成" ++ [10] ++
  py "- [ ] 单元测试通过" ++ [10] ++
  py "- [ ] 类型检查通过 (如果有)" ++ [10] ++
  py "- [ ] 创建 PR" ++ [10; 10] ++
  py "完成后请报告状态。" ++ [10].

(** [_generate_prompt]: the f-string with [task.description] twice and
    [task.branch] once. *)
Definition _generate_prompt (task : Task) : pystr :=
  py "# 任务: " ++ description task ++ [10; 10] ++
  py "## 分支" ++ [10] ++ branch task ++ [10; 10] ++
  py "## 目标" ++ [10] ++ py "完成以下任务: " ++ description task ++ prompt_tail.

(** The mismatched store after a successful start under the key. *)
Definition st_mismatched_started : State :=
  snd (start_task env_ok (py "task-ffffffff") st_mismatched).

(** A new workspace whose record file cannot be read, after a first create. *)
Definition st_after_unreadable : State :=
  snd (create_task lower_plain env_ok (py "write docs") None (init ws0 Unreadable [])).

Definition task_after_unreadable : Task :=
  fst (create_task lower_plain env_ok (py "write docs") None (init ws0 Unreadable [])).

(** Operations that follow a stop or a completion of [k0] without starting
    or deleting it: a status, a restart, a stop, another status. *)
Definition ops_without_start : list (Env * Op) :=
  [(env_exited, OpStatus k0); (env_ok, OpRestart); (env_ok, OpStop k0);
   (env_exited, OpStatus k0)].

(** After the status call that found the process of [k0] ended. *)
Definition st_completed : State := snd (check_task_status env_exited k0 st_running).
(** * Properties *)

(** ** Effect of the [try] block of [start_task] *)

Ltac unfold_M :=
  unfold external, modify, mbind, M_bind, mret, M_ret in *.

Lemma add_trace_nil st : add_trace [] st = st.
Proof. destruct st; unfold add_trace; simpl. by rewrite app_nil_r. Qed.

Lemma add_trace_add_trace evs1 evs2 st :
  add_trace evs2 (add_trace evs1 st) = add_trace (evs1 ++ evs2) st.
Proof. unfold add_trace; simpl. by rewrite app_assoc. Qed.

Lemma no_worktree_add_app evs1 evs2 :
  no_worktree_add (evs1 ++ evs2) = no_worktree_add evs1 && no_worktree_add evs2.
Proof. apply forallb_app. Qed.

Lemma install_deps_spec env wt st :
  ∃ o evs, _install_deps env wt st = (o, add_trace evs st) ∧ no_worktree_add evs = true.
Proof.
  unfold _install_deps. unfold_M. unfold emit.
  repeat case_match; simplify_eq/=;
    first [ by eexists _, [_] | by exists (Returns tt), []; rewrite add_trace_nil ].
Qed.

Lemma start_agent_spec env task wt pf st :
  ∃ evs,
    match _start_agent env task wt pf st with
    | (Returns p, st') =>
        In (EvPopen (workspace st // py ".agent-cluster" // py "scripts"
                       // (id task ++ py ".sh")) wt) evs ∧
        st' = set_RUNNING_AGENTS (<[id task := mkPopen p]> (RUNNING_AGENTS st))
                (add_trace evs st)
    | (Raises e, st') => st' = add_trace evs st
    end ∧ no_worktree_add evs = true.
Proof.
  unfold _start_agent. unfold_M. unfold emit.
  destruct (write_text env _) as [[]|e1]; simpl; [|by eexists].
  destruct (chmod env _) as [[]|e2]; simpl;
    rewrite ?add_trace_add_trace; [|by eexists].
  destruct (open_log env _) as [[]|e3]; simpl;
    rewrite ?add_trace_add_trace; [|by eexists].
  destruct (Popen_spawn env _ _) as [p|e4] eqn:Hp; simpl;
    rewrite ?add_trace_add_trace; [|by eexists].
  eexists; split_and!; [|done|done]. simpl. tauto.
Qed.

Lemma start_body_spec env k task st :
  ∃ evs,
    match start_body env k task st with
    | (Returns p, st') =>
        In (EvPopen (workspace st // py ".agent-cluster" // py "scripts"
                       // (id task ++ py ".sh"))
                    (worktree_path (workspace st) task)) evs ∧
        st' = started env k task p evs st
    | (Raises e, st') => st' = add_trace evs st
    end ∧
    (path_exists env (worktree_path (workspace st) task) = true →
     no_worktree_add evs = true).
Proof.
  unfold start_body.
  set (wt := worktree_path (workspace st) task).
  set (pf := workspace st // py ".agent-cluster" // py "prompts" // (k ++ py ".md")).
  assert (Hrest : ∀ evs0,
    (path_exists env wt = true → no_worktree_add evs0 = true) →
    ∃ evs,
      match (_install_deps env wt ;;
             external (EvWriteText pf) (write_text env pf) ;;
             p ← _start_agent env task wt pf ;
             modify (update_task k (mark_running (datetime_now env))) ;;
             modify _save_tasks ;; mret p) (add_trace evs0 st) with
      | (Returns p, st') =>
          In (EvPopen (workspace st // py ".agent-cluster" // py "scripts"
                         // (id task ++ py ".sh")) wt) evs ∧
          st' = started env k task p evs st
      | (Raises e, st') => st' = add_trace evs st
      end ∧ (path_exists env wt = true → no_worktree_add evs = true)).
  { intros evs0 Hno0. unfold_M.
    destruct (install_deps_spec env wt (add_trace evs0 st)) as (o & evs1 & -> & Hno1).
    rewrite add_trace_add_trace.
    destruct o as [[]|e1].
    2:{ eexists; split; [done|]. intros Hex.
        by rewrite no_worktree_add_app, Hno0, Hno1. }
    unfold emit. rewrite add_trace_add_trace.
    destruct (write_text env pf) as [[]|e2].
    2:{ eexists; split; [done|]. intros Hex.
        by rewrite !no_worktree_add_app, Hno0, Hno1. }
    destruct (start_agent_spec env task wt pf
                (add_trace ((evs0 ++ evs1) ++ [EvWriteText pf]) st)) as (evs2 & Hsa & Hno2).
    destruct (_start_agent env task wt pf _) as [[p|e3] st2].
    - destruct Hsa as (Hin & ->). simpl in Hin.
      rewrite add_trace_add_trace. simpl.
      eexists; split; [split; [|reflexivity]|].
      + apply in_or_app. by right.
      + intros Hex. by rewrite !no_worktree_add_app, Hno0, Hno1, Hno2.
    - subst st2. rewrite add_trace_add_trace.
      eexists; split; [done|].
      intros Hex. by rewrite !no_worktree_add_app, Hno0, Hno1, Hno2. }
  destruct (path_exists env wt) eqn:Hex; simpl.
  - destruct (Hrest [] (λ _, eq_refl)) as (evs & H & Hno).
    rewrite add_trace_nil in H. unfold_M. by exists evs.
  - unfold_M. unfold emit.
    destruct (subprocess_run env (GitWorktreeAdd wt (branch task)) (workspace st))
      as [rc|e0].
    + destruct (Hrest [EvRun (GitWorktreeAdd wt (branch task)) (workspace st)])
        as (evs & H & _); [done|].
      exists evs. split; [exact H | done].
    + by eexists.
Qed.

Lemma start_task_found env k st task :
  tasks st !! k = Some task →
  ∃ evs,
    (∃ p, start_body env k task st = (Returns p, started env k task p evs st) ∧
          start_task env k st = (true, started env k task p evs st) ∧
          In (EvPopen (workspace st // py ".agent-cluster" // py "scripts"
                         // (id task ++ py ".sh"))
                      (worktree_path (workspace st) task)) evs) ∨
    (∃ e, start_body env k task st = (Raises e, add_trace evs st) ∧
          start_task env k st =
            (false, _save_tasks (update_task k (mark_failed e) (add_trace evs st)))).
Proof.
  intros Hk. unfold start_task. rewrite Hk.
  destruct (start_body_spec env k task st) as (evs & H & _).
  exists evs. destruct (start_body env k task st) as [[p|e] st'].
  - destruct H as [Hin ->]. left. by exists p.
  - subst st'. right. by exists e.
Qed.

(** ** Start *)

(** C5. [start_task] on an id that is not in the store returns [False] and
    changes nothing: the task mapping, the record file and every other
    component of the state are the ones before the call. *)
Theorem C5_start_unknown_id env k st :
  tasks st !! k = None →
  start_task env k st = (false, st) ∧
  tasks (start_task env k st).2 = tasks st ∧
  tasks_file (start_task env k st).2 = tasks_file st.
Proof.
  intros Hk. unfold start_task. by rewrite Hk.
Qed.

(** C6. When the [try] block of [start_task] raises on an existing task,
    [start_task] returns [False]; the record then has status [failed] and
    the exception text as [error], the record file holds the updated
    mapping, and the external calls made before the exception stay as they
    are: the trace is the one at the point of the exception, which extends
    the trace before the call. *)
Theorem C6_start_exception env k st task e st1 :
  tasks st !! k = Some task →
  start_body env k task st = (Raises e, st1) →
  ∃ st', start_task env k st = (false, st') ∧
         tasks st' !! k = Some (mark_failed e task) ∧
         status (mark_failed e task) = failed ∧
         error (mark_failed e task) = Some e ∧
         tasks_file st' = Records (tasks st') ∧
         trace st' = trace st1 ∧
         ∃ evs, trace st1 = trace st ++ evs.
Proof.
  intros Hk Hbody.
  destruct (start_task_found env k st task Hk) as (evs & [(p & Hb & _)|(e' & Hb & Hs)]);
    rewrite Hbody in Hb; simplify_eq.
  eexists; split; [exact Hs|]. simpl.
  rewrite lookup_alter_eq, Hk. split_and!; try done. by exists evs.
Qed.

(** ** Status *)

Lemma check_task_status_unknown env k st :
  tasks st !! k = None → check_task_status env k st = (TaskNotFound, st).
Proof. intros Hk. unfold check_task_status. by rewrite Hk. Qed.

(** ** Stop and delete *)

Lemma stop_task_tasks env k st :
  tasks (stop_task env k st).2 = tasks st ∨
  tasks (stop_task env k st).2 = alter (mark_failed (py "Stopped by user")) k (tasks st).
Proof.
  unfold stop_task. repeat case_match; simpl; auto.
Qed.

(** C7. [delete_task] on an existing id returns [True] whatever the world
    answers to the stop it attempts first; afterwards the record is gone
    from the mapping (the other records are untouched), the record file
    holds the new mapping, and [check_task_status] on that id answers
    "Task not found". *)
Theorem C7_delete_removes env k st t :
  tasks st !! k = Some t →
  ∃ st', delete_task env k st = (true, st') ∧
         tasks st' = delete k (tasks st) ∧
         tasks st' !! k = None ∧
         tasks_file st' = Records (tasks st') ∧
         ∀ env', check_task_status env' k st' = (TaskNotFound, st').
Proof.
  intros Hk. unfold delete_task. rewrite Hk.
  eexists; split; [reflexivity|].
  assert (Hdel : tasks (_save_tasks (set_tasks (delete k (tasks (stop_task env k st).2))
                                       (stop_task env k st).2)) = delete k (tasks st)).
  { simpl. destruct (stop_task_tasks env k st) as [->| ->]; [done|].
    apply delete_alter_eq. }
  split_and!.
  - exact Hdel.
  - rewrite Hdel. apply lookup_delete_eq.
  - done.
  - intros env'. apply check_task_status_unknown. rewrite Hdel. apply lookup_delete_eq.
Qed.

(** ** Effect of each operation on the state *)

Lemma check_task_status_effect env k st :
  (check_task_status env k st).2 = st ∨
  ∃ t proc rc, tasks st !! k = Some t ∧ status t = running ∧
               RUNNING_AGENTS st !! k = Some proc ∧
               proc_poll env (pid proc) = Some rc ∧
               check_task_status env k st =
                 (TaskInfo (make_view (mark_completed (datetime_now env) t)),
                  completed_state (datetime_now env) k st).
Proof.
  unfold check_task_status.
  destruct (tasks st !! k) as [t|] eqn:Hk; [|by left].
  destruct (status t) eqn:Hs; try by left.
  destruct (RUNNING_AGENTS st !! k) as [proc|] eqn:Hr; [|by left].
  destruct (proc_poll env (pid proc)) as [rc|] eqn:Hp; [|by left].
  right. by exists t, proc, rc.
Qed.

Lemma stop_task_effect env k st :
  ((stop_task env k st).1 = false ∧
   ∃ evs, (stop_task env k st).2 = add_trace evs st) ∨
  ∃ t proc, tasks st !! k = Some t ∧ RUNNING_AGENTS st !! k = Some proc ∧
            killpg env (pid proc) = Returns tt ∧
            stop_task env k st = (true, stopped_state k proc st).
Proof.
  unfold stop_task.
  destruct (tasks st !! k) as [t|] eqn:Hk;
    [|left; split; [done|]; exists []; by rewrite add_trace_nil].
  destruct (RUNNING_AGENTS st !! k) as [proc|] eqn:Hr;
    [|left; split; [done|]; exists []; by rewrite add_trace_nil].
  destruct (killpg env (pid proc)) as [[]|e] eqn:Hkill.
  - right. by exists t, proc.
  - left. split; [done|]. by eexists.
Qed.

Lemma start_task_effect env k st :
  start_task env k st = (false, st) ∧ tasks st !! k = None ∨
  ∃ t evs, tasks st !! k = Some t ∧
    ((∃ p, start_task env k st = (true, started env k t p evs st)) ∨
     (∃ e, start_task env k st =
             (false, _save_tasks (update_task k (mark_failed e) (add_trace evs st))))).
Proof.
  destruct (tasks st !! k) as [t|] eqn:Hk.
  - right. destruct (start_task_found env k st t Hk) as (evs & [(p & _ & H & _)|(e & _ & H)]);
      exists t, evs; (split; [done|]); [left|right]; eauto.
  - left. split; [|done]. unfold start_task. by rewrite Hk.
Qed.

(** ** Invariants of the runs *)

Section Invariants.

Variable lower_ext : pystr -> N -> pystr -> pystr.

Lemma keys_match_alter f k m :
  (∀ t, id (f t) = id t) → keys_match m → keys_match (alter f k m).
Proof.
  intros Hf Hm k' t'. rewrite lookup_alter.
  case_decide as Hkk; [subst k'|by apply Hm].
  destruct (m !! k) as [t|] eqn:Hk; simpl; [|done].
  intros [= <-]. rewrite Hf. by apply Hm.
Qed.

Lemma keys_match_delete k m : keys_match m → keys_match (delete k m).
Proof.
  intros Hm k' t'. rewrite lookup_delete.
  case_decide; [done|]. apply Hm.
Qed.

Lemma step_keys_match env op st :
  keys_match (tasks st) → persisted st → keys_match (tasks (step lower_ext env op st)).
Proof.
  intros Hm Hp. destruct op as [d b|k|k|k|k|]; simpl.
  - intros k' t'. rewrite lookup_insert. case_decide; [|apply Hm].
    by intros [= <-].
  - destruct (start_task_effect env k st) as [[-> _]|(t & evs & Hk & [[p ->]|[e ->]])];
      simpl; [done| |]; by apply keys_match_alter.
  - destruct (check_task_status_effect env k st) as [->|(t & proc & rc & _ & _ & _ & _ & ->)];
      [done|]. simpl. by apply keys_match_alter.
  - destruct (stop_task_effect env k st) as [[_ [evs ->]]|(t & proc & _ & _ & _ & ->)];
      [done|]. simpl. by apply keys_match_alter.
  - unfold delete_task. destruct (tasks st !! k); [|done]. simpl.
    apply keys_match_delete.
    destruct (stop_task_tasks env k st) as [->| ->]; [done|].
    by apply keys_match_alter.
  - unfold persisted in Hp. by rewrite Hp.
Qed.

Lemma step_persisted env op st :
  persisted st → persisted (step lower_ext env op st).
Proof.
  intros Hp. destruct op as [d b|k|k|k|k|]; simpl; try done.
  - destruct (start_task_effect env k st) as [[-> _]|(t & evs & Hk & [[p ->]|[e ->]])];
      done.
  - by destruct (check_task_status_effect env k st)
      as [->|(t & proc & rc & _ & _ & _ & _ & ->)].
  - by destruct (stop_task_effect env k st) as [[_ [evs ->]]|(t & proc & _ & _ & _ & ->)].
  - unfold delete_task. by destruct (tasks st !! k).
Qed.

Lemma step_tracked_started (P : Z → Prop) env op st :
  keys_match (tasks st) → op_ok env op st → P (datetime_now env) →
  tracked_started P st → tracked_started P (step lower_ext env op st).
Proof.
  intros Hm Hok Hnow Hinv. destruct op as [d b|k|k|k|k|]; simpl.
  - destruct Hok as [_ Hfresh]. intros k' p' t' Hr. simpl in *.
    rewrite lookup_insert. case_decide; [congruence|]. by apply (Hinv k' p').
  - destruct (start_task_effect env k st) as [[-> _]|(t & evs & Hk & [[p ->]|[e ->]])];
      [done| |]; intros k' p' t'; simpl.
    + rewrite (Hm _ _ Hk), lookup_insert, lookup_alter.
      case_decide; [subst k'|by apply Hinv].
      rewrite Hk. intros _ [= <-]. split; [by left|]. by eexists.
    + rewrite lookup_alter. case_decide; [subst k'|by apply Hinv].
      rewrite Hk. intros Hr [= <-].
      destruct (Hinv _ _ _ Hr Hk) as [_ Hs]. split; [by right|done].
  - destruct (check_task_status_effect env k st)
      as [->|(t & proc & rc & _ & _ & _ & _ & ->)]; [done|].
    intros k' p' t'; simpl. rewrite lookup_delete, lookup_alter.
    case_decide; [done|]. by apply Hinv.
  - destruct (stop_task_effect env k st) as [[_ [evs ->]]|(t & proc & _ & _ & _ & ->)];
      [done|].
    intros k' p' t'; simpl. rewrite lookup_delete, lookup_alter.
    case_decide; [done|]. by apply Hinv.
  - unfold delete_task. destruct (tasks st !! k) eqn:Hk; [|done].
    intros k' p' t'; simpl. rewrite lookup_delete. case_decide; [done|].
    destruct (stop_task_effect env k st) as [[_ [evs ->]]|(t0 & proc & _ & _ & _ & ->)];
      simpl; [by apply Hinv|].
    rewrite lookup_delete, lookup_alter. case_decide; [done|]. by apply Hinv.
  - intros k' p' t'; simpl. by rewrite lookup_empty.
Qed.

Lemma tracked_started_weaken (P Q : Z → Prop) st :
  (∀ s, P s → Q s) → tracked_started P st → tracked_started Q st.
Proof.
  intros HPQ Hinv k p t Hr Hk. destruct (Hinv k p t Hr Hk) as [Hs (s & Hst & HP)].
  split; [done|]. exists s. auto.
Qed.

Lemma initial_invariants P st :
  initial st → keys_match (tasks st) ∧ persisted st ∧ tracked_started P st.
Proof.
  intros (ws & f & tr & -> & Hm). split_and!; [done|done|].
  intros k p t; simpl. by rewrite lookup_empty.
Qed.

Lemma reachable_invariants st :
  reachable lower_ext st →
  keys_match (tasks st) ∧ persisted st ∧ tracked_started (λ _, True) st.
Proof.
  induction 1 as [st Hi|st env op Hr (Hm & Hp & Ht) Hok].
  - by apply initial_invariants.
  - split_and!; [by apply step_keys_match|by apply step_persisted|
                 by apply step_tracked_started].
Qed.

Lemma clocked_reachable c st : clocked lower_ext c st → reachable lower_ext st.
Proof.
  induction 1; [by apply reachable_init|by apply reachable_step].
Qed.

Lemma clocked_invariant c st :
  clocked lower_ext c st → tracked_started (λ s, (s ≤ c)%Z) st.
Proof.
  induction 1 as [c st Hi|c st env op Hc IH Hle Hok].
  - by apply initial_invariants.
  - apply step_tracked_started; [|done|lia|].
    + by apply (reachable_invariants st), (clocked_reachable c).
    + eapply tracked_started_weaken; [|exact IH]. simpl. lia.
Qed.

End Invariants.

(** ** The live-process table *)

Lemma filter_key_nil {A} (k : pystr) (l : list (pystr * A)) :
  k ∉ l.*1 → filter (λ kp, kp.1 = k) l = [].
Proof.
  induction l as [|[k' a] l IH]; [done|]. simpl. intros Hnot.
  rewrite filter_cons. simpl. case_decide as Hk.
  - subst k'. exfalso. apply Hnot. left.
  - apply IH. intros Hin. apply Hnot. by right.
Qed.

Lemma filter_key_length {A} (k : pystr) (l : list (pystr * A)) :
  NoDup l.*1 → (length (filter (λ kp, kp.1 = k) l) ≤ 1)%nat.
Proof.
  induction l as [|[k' a] l IH]; simpl; [lia|].
  intros Hnd. apply NoDup_cons in Hnd as [Hnot Hnd].
  rewrite filter_cons. simpl. case_decide as Hk.
  - subst k'. rewrite filter_key_nil by done. simpl. lia.
  - by apply IH.
Qed.

Lemma entries_of_length k st : (length (entries_of k st) ≤ 1)%nat.
Proof. apply filter_key_length, NoDup_fst_map_to_list. Qed.

Lemma step_tracked_running lower_ext env op st :
  keys_match (tasks st) → op_ok env op st → tracked_running st →
  match op with
  | OpStart k => (start_task env k st).1 = true ∨ RUNNING_AGENTS st !! k = None
  | OpDelete k => RUNNING_AGENTS (stop_task env k st).2 !! k = None
  | _ => True
  end →
  tracked_running (step lower_ext env op st).
Proof.
  intros Hm Hok Hinv Hcond. destruct op as [d b|k|k|k|k|]; simpl.
  - destruct Hok as [_ Hfresh]. intros k' p' Hr. simpl in *.
    rewrite lookup_insert_ne by congruence. by apply (Hinv k' p').
  - destruct (start_task_effect env k st) as [[-> _]|(t & evs & Hk & [[p Hst]|[e Hst]])];
      [done| |]; rewrite Hst in *; intros k' p'; simpl.
    + rewrite (Hm _ _ Hk), lookup_insert, lookup_alter.
      case_decide; [subst k'|by apply Hinv].
      rewrite Hk. intros _. by eexists.
    + destruct Hcond as [Hc|Hc]; [done|]. intros Hr.
      rewrite lookup_alter_ne by congruence. by apply (Hinv k' p').
  - destruct (check_task_status_effect env k st)
      as [->|(t & proc & rc & _ & _ & _ & _ & ->)]; [done|].
    intros k' p'; simpl. rewrite lookup_delete, lookup_alter.
    case_decide; [done|]. by apply Hinv.
  - destruct (stop_task_effect env k st) as [[_ [evs ->]]|(t & proc & _ & _ & _ & ->)];
      [done|].
    intros k' p'; simpl. rewrite lookup_delete, lookup_alter.
    case_decide; [done|]. by apply Hinv.
  - unfold delete_task. destruct (tasks st !! k) eqn:Hk; [|done].
    intros k' p'; simpl.
    destruct (stop_task_effect env k st) as [[_ [evs Hst]]|(t0 & proc & _ & _ & _ & Hst)];
      rewrite Hst in *; simpl in *.
    + intros Hr. rewrite lookup_delete_ne by congruence. by apply (Hinv k' p').
    + rewrite !lookup_delete. case_decide; [done|].
      rewrite lookup_alter_ne by done. by apply Hinv.
  - intros k' p'; simpl. by rewrite lookup_empty.
Qed.

(** C1 (as amended). In every reachable state a task has at most one entry
    in the live-process table, and an entry whose record exists belongs to
    a task that was started and is running or failed.  The invariant "an
    entry belongs to an existing record with status running" is kept by
    create, status, stop and restart, by a start that succeeds or concerns
    an untracked task, and by a delete whose stop leaves no entry for the
    deleted id. *)
Theorem C1_live_process_table lower_ext st :
  reachable lower_ext st →
  (∀ k, (length (entries_of k st) ≤ 1)%nat) ∧
  tracked_started (λ _, True) st ∧
  ∀ env op,
    op_ok env op st → tracked_running st →
    match op with
    | OpStart k => (start_task env k st).1 = true ∨ RUNNING_AGENTS st !! k = None
    | OpDelete k => RUNNING_AGENTS (stop_task env k st).2 !! k = None
    | _ => True
    end →
    tracked_running (step lower_ext env op st).
Proof.
  intros Hr. destruct (reachable_invariants lower_ext st Hr) as (Hm & Hp & Ht).
  split_and!; [intros k; apply entries_of_length|done|].
  intros env op. by apply step_tracked_running.
Qed.

(** ** Status transitions *)

Lemma step_status lower_ext (P : Z → Prop) env op st k t t' :
  persisted st → tracked_started P st → op_ok env op st →
  tasks st !! k = Some t → tasks (step lower_ext env op st) !! k = Some t' →
  (op = OpStart k ∧ (status t' = running ∨ status t' = failed)) ∨
  status t' = status t ∨
  (status t = running ∧ terminal (status t')).
Proof.
  intros Hp Hinv Hok Hk. destruct op as [d b|k1|k1|k1|k1|]; simpl.
  - destruct Hok as [Hfresh _]. simpl in *.
    rewrite lookup_insert_ne by congruence. rewrite Hk. intros [= <-]. auto.
  - destruct (start_task_effect env k1 st) as [[-> _]|(t1 & evs & Hk1 & [[p ->]|[e ->]])];
      simpl.
    + rewrite Hk. intros [= <-]. auto.
    + rewrite lookup_alter. case_decide; [subst k1|rewrite Hk; intros [= <-]; auto].
      rewrite Hk. intros [= <-]. left. auto.
    + rewrite lookup_alter. case_decide; [subst k1|rewrite Hk; intros [= <-]; auto].
      rewrite Hk. intros [= <-]. left. auto.
  - destruct (check_task_status_effect env k1 st)
      as [->|(t1 & proc & rc & Hk1 & Hs & _ & _ & ->)].
    + rewrite Hk. intros [= <-]. auto.
    + simpl. rewrite lookup_alter. case_decide; [subst k1|rewrite Hk; intros [= <-]; auto].
      rewrite Hk. intros [= <-]. simplify_eq. right; right. split; [done|by left].
  - destruct (stop_task_effect env k1 st) as [[_ [evs ->]]|(t1 & proc & Hk1 & Hr & _ & ->)].
    + simpl. rewrite Hk. intros [= <-]. auto.
    + simpl. rewrite lookup_alter. case_decide; [subst k1|rewrite Hk; intros [= <-]; auto].
      rewrite Hk. intros [= <-]. simplify_eq.
      destruct (Hinv _ _ _ Hr Hk) as [[Hs|Hs] _].
      * right; right. split; [done|by right].
      * right; left. by rewrite Hs.
  - unfold delete_task. destruct (tasks st !! k1) eqn:Hk1;
      [|simpl; rewrite Hk; intros [= <-]; auto].
    simpl. rewrite lookup_delete. case_decide; [done|].
    destruct (stop_task_tasks env k1 st) as [->| ->];
      rewrite ?lookup_alter_ne by done; rewrite Hk; intros [= <-]; auto.
  - unfold persisted in Hp. rewrite Hp, Hk. intros [= <-]. auto.
Qed.

Lemma step_keeps_record lower_ext env op st k t :
  persisted st → op_ok env op st → op ≠ OpDelete k →
  tasks st !! k = Some t → is_Some (tasks (step lower_ext env op st) !! k).
Proof.
  intros Hp Hok Hop Hk.
  assert (Halter : ∀ f k1, is_Some (alter f k1 (tasks st) !! k))
    by (intros; rewrite lookup_alter_is_Some; by rewrite Hk).
  destruct op as [d b|k1|k1|k1|k1|]; simpl.
  - destruct Hok as [Hfresh _]. simpl in *.
    rewrite lookup_insert_ne by congruence. by rewrite Hk.
  - destruct (start_task_effect env k1 st) as [[-> _]|(t1 & evs & Hk1 & [[p ->]|[e ->]])];
      simpl; [by rewrite Hk|done|done].
  - destruct (check_task_status_effect env k1 st)
      as [->|(t1 & proc & rc & Hk1 & Hs & _ & _ & ->)];
      simpl; [by rewrite Hk|done].
  - destruct (stop_task_effect env k1 st) as [[_ [evs ->]]|(t1 & proc & Hk1 & Hr & _ & ->)];
      simpl; [by rewrite Hk|done].
  - assert (k1 ≠ k) by congruence.
    unfold delete_task. destruct (tasks st !! k1) eqn:Hk1; [|simpl; by rewrite Hk].
    simpl. rewrite lookup_delete_ne by done.
    destruct (stop_task_tasks env k1 st) as [->| ->]; [by rewrite Hk|done].
  - unfold persisted in Hp. by rewrite Hp, Hk.
Qed.

Lemma run_status lower_ext l : ∀ st k t t',
  reachable lower_ext st → run_ok lower_ext l st →
  Forall (λ eo, eo.2 ≠ OpStart k ∧ eo.2 ≠ OpDelete k) l →
  tasks st !! k = Some t → tasks (run lower_ext l st) !! k = Some t' →
  status t' = status t ∨ (status t = running ∧ terminal (status t')).
Proof.
  induction l as [|[env op] l IH]; simpl; intros st k t t' Hr Hok Hall Hk Hk'.
  - left. congruence.
  - destruct Hok as [Hok Hoks]. apply Forall_cons in Hall as [[Hns Hnd] Hall].
    simpl in *.
    destruct (reachable_invariants lower_ext st Hr) as (Hm & Hp & Ht).
    destruct (step_keeps_record lower_ext env op st k t Hp Hok Hnd Hk) as [t1 Hk1].
    assert (Hr1 : reachable lower_ext (step lower_ext env op st))
      by (by apply reachable_step).
    specialize (IH _ _ _ _ Hr1 Hoks Hall Hk1 Hk').
    destruct (step_status lower_ext _ env op st k t t1 Hp Ht Hok Hk Hk1)
      as [[Hs _]|[Hs|[Hs Hterm]]]; [done| |].
    + by rewrite <- Hs.
    + right. split; [done|].
      destruct IH as [->|[Hrun _]]; [done|].
      destruct Hterm; congruence.
Qed.

(** C2 (as amended). Along every sequence of operations that neither starts
    nor deletes a task, the status of the task stays as it is or moves from
    running to completed or failed: no status returns to pending, and a
    completed or failed status is kept.  [start_task], however, is accepted
    in every status, completed and failed included, and sets the status to
    running when it returns [True] and to failed when it returns [False]. *)
Theorem C2_status_moves lower_ext st k t :
  reachable lower_ext st → tasks st !! k = Some t →
  (∀ l t', run_ok lower_ext l st →
           Forall (λ eo, eo.2 ≠ OpStart k ∧ eo.2 ≠ OpDelete k) l →
           tasks (run lower_ext l st) !! k = Some t' →
           status t' = status t ∨ (status t = running ∧ terminal (status t'))) ∧
  (∀ env, ∃ t', tasks (start_task env k st).2 !! k = Some t' ∧
                status t' = if (start_task env k st).1 then running else failed).
Proof.
  intros Hr Hk. split.
  - intros l t' Hok Hall Hk'. by eapply run_status.
  - intros env.
    destruct (start_task_found env k st t Hk) as (evs & [(p & _ & -> & _)|(e & _ & ->)]);
      simpl; rewrite lookup_alter_eq, Hk; by eexists.
Qed.

(** C3 (as amended). For an existing task, [check_task_status] makes the
    transition running -> completed exactly when the status is running, the
    task has an entry in the live-process table and the poll of that process
    reports its end.  It then stamps [completed_at] with the reading of the
    wall clock, removes the entry, saves and returns the updated record; in
    every other case the state is unchanged.  In a run whose clock readings
    never decrease the task has a [started_at], and the stamped
    [completed_at] is not before it. *)
Theorem C3_status_completes lower_ext env k st t :
  tasks st !! k = Some t →
  ((∃ proc rc, status t = running ∧ RUNNING_AGENTS st !! k = Some proc ∧
               proc_poll env (pid proc) = Some rc) →
   ∃ t' st', check_task_status env k st = (TaskInfo (make_view t'), st') ∧
             t' = mark_completed (datetime_now env) t ∧
             tasks st' = <[k := t']> (tasks st) ∧
             status t' = completed ∧
             completed_at t' = Some (datetime_now env) ∧
             RUNNING_AGENTS st' = delete k (RUNNING_AGENTS st) ∧
             RUNNING_AGENTS st' !! k = None ∧
             tasks_file st' = Records (tasks st') ∧
             ∀ c, clocked lower_ext c st → (c ≤ datetime_now env)%Z →
                  ∃ s, started_at t' = Some s ∧ (s ≤ datetime_now env)%Z) ∧
  (¬ (∃ proc rc, status t = running ∧ RUNNING_AGENTS st !! k = Some proc ∧
                 proc_poll env (pid proc) = Some rc) →
   check_task_status env k st = (TaskInfo (make_view t), st)).
Proof.
  intros Hk. split.
  - intros (proc & rc & Hs & Hr & Hpoll).
    exists (mark_completed (datetime_now env) t). eexists.
    unfold check_task_status. rewrite Hk, Hs, Hr, Hpoll.
    split_and!; try done.
    + simpl. apply map_eq. intros k'. rewrite lookup_alter, lookup_insert.
      case_decide; [subst k'; by rewrite Hk|done].
    + simpl. apply lookup_delete_eq.
    + intros c Hc Hle.
      destruct (clocked_invariant lower_ext c st Hc k proc t Hr Hk) as [_ (s & Hst & Hsc)].
      exists s. simpl in *. split; [done|lia].
  - intros Hnot. unfold check_task_status. rewrite Hk.
    destruct (status t) eqn:Hs; try done.
    destruct (RUNNING_AGENTS st !! k) as [proc|] eqn:Hr; [|done].
    destruct (proc_poll env (pid proc)) as [rc|] eqn:Hpoll; [|done].
    exfalso. apply Hnot. by exists proc, rc.
Qed.

(** C4 (as amended). For an existing task whose tracked process group is
    there to be signalled, [stop_task] returns [True]; the record then has
    status [failed] and error "Stopped by user", the entry of the task is
    removed from the live-process table and the record file holds the new
    mapping.  For a task without entry, in particular for every task after
    a restart, [stop_task] returns [False] and changes nothing. *)
Theorem C4_stop env k st t :
  tasks st !! k = Some t →
  (∀ proc, RUNNING_AGENTS st !! k = Some proc → killpg env (pid proc) = Returns tt →
     ∃ t' st', stop_task env k st = (true, st') ∧
               tasks st' !! k = Some t' ∧
               t' = mark_failed (py "Stopped by user") t ∧
               status t' = failed ∧
               error t' = Some (py "Stopped by user") ∧
               RUNNING_AGENTS st' = delete k (RUNNING_AGENTS st) ∧
               RUNNING_AGENTS st' !! k = None ∧
               tasks_file st' = Records (tasks st')) ∧
  (RUNNING_AGENTS st !! k = None → stop_task env k st = (false, st)) ∧
  RUNNING_AGENTS (restart st) !! k = None ∧
  stop_task env k (restart st) = (false, restart st).
Proof.
  intros Hk. split_and!.
  - intros proc Hr Hkill. unfold stop_task. rewrite Hk, Hr, Hkill.
    eexists _, _. split; [reflexivity|]. simpl.
    rewrite lookup_alter_eq, Hk, lookup_delete_eq. by split_and!.
  - intros Hr. unfold stop_task. by rewrite Hk, Hr.
  - done.
  - unfold stop_task. simpl. rewrite lookup_empty. by case_match.
Qed.

(** ** Strings *)

Lemma startswith_app kw b : startswith kw (kw ++ b) = true.
Proof.
  induction kw as [|c kw IH]; simpl; [done|]. by rewrite N.eqb_refl.
Qed.

Lemma str_in_startswith kw s : startswith kw s = true → str_in kw s = true.
Proof. destruct s; simpl; by intros ->. Qed.

Lemma str_in_app kw a b : str_in kw (a ++ kw ++ b) = true.
Proof.
  induction a as [|c a IH]; simpl.
  - apply str_in_startswith, startswith_app.
  - rewrite IH. apply orb_true_r.
Qed.

Lemma startswith_inv kw s : startswith kw s = true → ∃ b, s = kw ++ b.
Proof.
  revert s. induction kw as [|c kw IH]; intros s; simpl.
  - intros _. by exists s.
  - destruct s as [|c' s]; [done|]. intros [Hc Hs]%andb_true_iff.
    apply N.eqb_eq in Hc as ->. destruct (IH s Hs) as [b ->]. by exists b.
Qed.

Lemma str_in_inv kw s : str_in kw s = true → ∃ a b, s = a ++ kw ++ b.
Proof.
  induction s as [|c s IH]; simpl.
  - rewrite orb_false_r. intros [b Hb]%startswith_inv. by exists [], b.
  - intros [H|H]%orb_true_iff.
    + apply startswith_inv in H as [b Hb]. by exists [], b.
    + destruct (IH H) as (a & b & ->). by exists (c :: a), b.
Qed.

Lemma lower_cp_keeps_case lower_ext pre c post :
  keeps_case c = true → lower_cp lower_ext pre c post = [c].
Proof.
  unfold keeps_case, lower_cp. intros [[H1 H2]%andb_true_iff|H]%orb_true_iff.
  - rewrite H1. apply negb_true_iff in H2. by rewrite H2.
  - rewrite H. destruct (c <? 128) eqn:Hc; [|done].
    unfold is_cjk in H. apply andb_true_iff in H as [H _].
    apply N.leb_le in H. apply N.ltb_lt in Hc. lia.
Qed.

Lemma lower_at_keeps_case lower_ext kw : ∀ pre b,
  forallb keeps_case kw = true →
  lower_at lower_ext pre (kw ++ b) = kw ++ lower_at lower_ext (pre ++ kw) b.
Proof.
  induction kw as [|c kw IH]; intros pre b; simpl.
  - by rewrite app_nil_r.
  - intros [Hc Hkw]%andb_true_iff.
    rewrite lower_cp_keeps_case by done. simpl.
    rewrite IH by done. by rewrite <- app_assoc.
Qed.

Lemma lower_at_contains lower_ext kw a b : ∀ pre,
  forallb keeps_case kw = true →
  ∃ x y, lower_at lower_ext pre (a ++ kw ++ b) = x ++ kw ++ y.
Proof.
  induction a as [|c a IH]; intros pre Hkw; simpl.
  - exists [], (lower_at lower_ext (pre ++ kw) b). by apply lower_at_keeps_case.
  - destruct (IH (pre ++ [c]) Hkw) as (x & y & ->).
    exists (lower_cp lower_ext pre c (a ++ kw ++ b) ++ x), y. by rewrite <- app_assoc.
Qed.

(** A keyword made of lowercase ASCII or CJK characters that occurs in a
    description occurs in the lowercased description. *)
Lemma str_in_lower lower_ext kw d :
  forallb keeps_case kw = true → str_in kw d = true →
  str_in kw (lower lower_ext d) = true.
Proof.
  intros Hkw (a & b & ->)%str_in_inv. unfold lower.
  destruct (lower_at_contains lower_ext kw a b [] Hkw) as (x & y & ->).
  apply str_in_app.
Qed.

Lemma replace_char_not_elem old new s : old ≠ new → old ∉ replace_char old new s.
Proof.
  intros Hne. unfold replace_char. induction s as [|c s IH]; simpl.
  - apply not_elem_of_nil.
  - apply not_elem_of_cons. split; [|done].
    destruct (c =? old) eqn:Hc; [done|]. by apply N.eqb_neq in Hc.
Qed.

(** ** Agent selection and task creation *)

Lemma select_agent_first_match lower_ext d :
  select_agent lower_ext d = first_match keyword_rules codex (lower lower_ext d).
Proof.
  unfold select_agent, first_match, keyword_rules, matches. simpl.
  by repeat case_match.
Qed.

(** C8 (as amended). [select_agent] is a function of the description alone:
    the lowercased description is matched against the keyword sets in the
    order frontend/UI, backend/data, locale; the first set with a match
    decides and no match gives the default, codex.  A description that
    contains "frontend" gives claude; one that contains "database" gives
    codex when no frontend/UI keyword occurs in it; one that contains "中文"
    gives glm when neither a frontend/UI nor a backend/data keyword occurs
    in it; the empty description gives codex.  After [create_task] the new
    record is stored with status pending and with the selected agent. *)
Theorem C8_agent_selection lower_ext d :
  select_agent lower_ext d = first_match keyword_rules codex (lower lower_ext d) ∧
  (str_in (py "frontend") d = true → select_agent lower_ext d = claude) ∧
  (str_in (py "database") d = true →
   matches frontend_keywords (lower lower_ext d) = false →
   select_agent lower_ext d = codex) ∧
  (str_in (py "中文") d = true →
   matches frontend_keywords (lower lower_ext d) = false →
   matches backend_keywords (lower lower_ext d) = false →
   select_agent lower_ext d = glm) ∧
  select_agent lower_ext [] = codex ∧
  ∀ env b st,
    let r := create_task lower_ext env d b st in
    status r.1 = pending ∧
    agent_type r.1 = select_agent lower_ext d ∧
    tasks r.2 !! id r.1 = Some r.1.
Proof.
  split_and!.
  - apply select_agent_first_match.
  - intros H. apply (str_in_lower lower_ext) in H; [|done].
    unfold select_agent. simpl. by rewrite H.
  - intros H Hf. apply (str_in_lower lower_ext) in H; [|done].
    unfold select_agent. fold frontend_keywords. fold (matches frontend_keywords (lower lower_ext d)).
    rewrite Hf. simpl. rewrite H. by rewrite !orb_true_r.
  - intros H Hf Hb. apply (str_in_lower lower_ext) in H; [|done].
    unfold select_agent.
    fold frontend_keywords. fold (matches frontend_keywords (lower lower_ext d)).
    fold backend_keywords. fold (matches backend_keywords (lower lower_ext d)).
    rewrite Hf, Hb. simpl. rewrite H. by rewrite !orb_true_r.
  - done.
  - intros env b st. simpl. split_and!; [done|done|]. apply lookup_insert_eq.
Qed.

Lemma lower_cp_plain lower_ext pre c post :
  plain_char c = true → lower_cp lower_ext pre c post = [ascii_lower c].
Proof.
  unfold plain_char, lower_cp, ascii_lower. intros Hc.
  destruct (c <? 128) eqn:H128; [done|]. simpl in Hc. rewrite Hc.
  replace (is_ascii_upper c) with false; [done|].
  symmetry. unfold is_ascii_upper. apply andb_false_iff. right.
  apply N.leb_gt. apply N.ltb_ge in H128. lia.
Qed.

Lemma lower_at_plain lower_ext d : ∀ pre,
  forallb plain_char d = true → lower_at lower_ext pre d = map ascii_lower d.
Proof.
  induction d as [|c d IH]; intros pre; simpl; [done|].
  intros [Hc Hd]%andb_true_iff. rewrite lower_cp_plain by done. simpl.
  by rewrite IH.
Qed.

Lemma lower_at_pieces lower_ext s : ∀ pre,
  lower_at lower_ext pre s = concat (lower_pieces lower_ext pre s).
Proof.
  induction s as [|c r IH]; intros pre; simpl; [done|]. by rewrite IH.
Qed.

Lemma lower_pieces_length lower_ext s : ∀ pre,
  length (lower_pieces lower_ext pre s) = length s.
Proof.
  induction s as [|c r IH]; intros pre; simpl; [done|]. by rewrite IH.
Qed.

Lemma lower_pieces_lookup lower_ext s : ∀ pre i c,
  s !! i = Some c →
  ∃ before after, lower_pieces lower_ext pre s !! i
                  = Some (lower_cp lower_ext before c after).
Proof.
  induction s as [|c0 r IH]; intros pre i c; [done|].
  destruct i as [|i]; simpl.
  - intros [= ->]. by eexists _, _.
  - apply IH.
Qed.

Lemma ascii_lower_not_upper c : ¬ (65 ≤ ascii_lower c ∧ ascii_lower c ≤ 90).
Proof.
  unfold ascii_lower, is_ascii_upper.
  destruct (65 <=? c) eqn:H1; destruct (c <=? 90) eqn:H2; simpl;
    try apply N.leb_le in H1; try apply N.leb_le in H2;
    try apply N.leb_gt in H1; try apply N.leb_gt in H2; lia.
Qed.

(** C10. Without a branch argument ([None], or the empty string, which
    [not branch] treats alike) [create_task] names the branch "feat/"
    followed by the first 30 characters of the description, each space
    replaced by a hyphen, lowercased: the branch is "feat/" followed by one
    piece for each of these characters, in order, and the piece of an ASCII
    character is that character with A-Z turned into a-z (the piece of a
    CJK ideograph is the ideograph).  For a description of ASCII characters
    and CJK ideographs this gives the branch in full, and no letter A-Z
    occurs in it.  What follows the 30th character of the description has
    no influence on the branch; a non-empty branch argument is taken as it
    is. *)
Theorem C10_derived_branch lower_ext env d st :
  length (replace_char 32 45 (take 30 d)) = (30 `min` length d)%nat ∧
  (∀ i c, take 30 d !! i = Some c →
          replace_char 32 45 (take 30 d) !! i = Some (if c =? 32 then 45 else c)) ∧
  (∃ pieces,
     branch (create_task lower_ext env d None st).1 = py "feat/" ++ concat pieces ∧
     length pieces = length (replace_char 32 45 (take 30 d)) ∧
     ∀ i c, replace_char 32 45 (take 30 d) !! i = Some c →
       (c < 128 →
        pieces !! i = Some [if (65 <=? c) && (c <=? 90) then c + 32 else c]) ∧
       (is_cjk c = true → pieces !! i = Some [c])) ∧
  (forallb plain_char d = true →
   branch (create_task lower_ext env d None st).1
     = py "feat/" ++ map (λ c, if (65 <=? c) && (c <=? 90) then c + 32 else c)
                         (replace_char 32 45 (take 30 d)) ∧
   ∀ c, c ∈ branch (create_task lower_ext env d None st).1 → ¬ (65 ≤ c ∧ c ≤ 90)) ∧
  branch (create_task lower_ext env d None st).1 =
    py "feat/" ++ lower lower_ext (replace_char 32 45 (take 30 d)) ∧
  branch (create_task lower_ext env d (Some []) st).1 =
    branch (create_task lower_ext env d None st).1 ∧
  (∀ d', take 30 d' = take 30 d →
         branch (create_task lower_ext env d' None st).1 =
         branch (create_task lower_ext env d None st).1) ∧
  (∀ c b, branch (create_task lower_ext env d (Some (c :: b)) st).1 = c :: b).
Proof.
  assert (Hb : branch (create_task lower_ext env d None st).1 =
               py "feat/" ++ lower lower_ext (replace_char 32 45 (take 30 d)))
    by reflexivity.
  split_and!; try done.
  - unfold replace_char. by rewrite length_map, length_take.
  - intros i c Hi. unfold replace_char. by rewrite list_lookup_fmap, Hi.
  - exists (lower_pieces lower_ext [] (replace_char 32 45 (take 30 d))).
    rewrite Hb. unfold lower. rewrite lower_at_pieces, lower_pieces_length.
    split_and!; [done|done|].
    intros i c Hi.
    destruct (lower_pieces_lookup lower_ext _ [] i c Hi) as (before & after & ->).
    split.
    + intros Hc. unfold lower_cp. apply N.ltb_lt in Hc. by rewrite Hc.
    + intros Hc. rewrite lower_cp_keeps_case; [done|].
      unfold keeps_case. rewrite Hc. apply orb_true_r.
  - intros Hd. rewrite Hb. unfold lower.
    assert (Hs : forallb plain_char (replace_char 32 45 (take 30 d)) = true).
    { apply forallb_forall. intros c Hin.
      unfold replace_char in Hin. apply in_map_iff in Hin as (c0 & <- & Hin).
      destruct (c0 =? 32); [done|].
      rewrite forallb_forall in Hd. apply Hd.
      apply list_elem_of_In. apply list_elem_of_In in Hin.
      by eapply (subseteq_take 30 d). }
    rewrite lower_at_plain by done. split; [done|].
    intros c [Hc|Hc]%elem_of_app.
    + vm_compute in Hc. repeat (apply elem_of_cons in Hc as [->|Hc]; [lia|]).
      by apply elem_of_nil in Hc.
    + apply list_elem_of_fmap in Hc as (c0 & -> & _). apply ascii_lower_not_upper.
  - intros d' Hd. unfold create_task, slice_to. cbn [fst branch]. by rewrite Hd.
Qed.

(** ** Worktree reuse *)

Lemma start_task_with_git_outcome o env k st t :
  tasks st !! k = Some t →
  path_exists env (worktree_path (workspace st) t) = true →
  start_task (with_git_outcome o env) k st = start_task env k st.
Proof.
  intros Hk Hex. unfold start_task, start_body. rewrite Hk. simpl.
  by rewrite Hex.
Qed.

(** C9. When the worktree directory of the task exists, [start_task] makes
    no [git worktree add] call, so that its result does not depend on what
    that command would have answered; the directory it uses is the
    workspace's [.agent-cluster/worktrees/<branch with "/" replaced by "_">],
    the same at every start of the task because [start_task] leaves the
    branch as it is; when the start succeeds the agent was spawned in that
    directory. *)
Theorem C9_worktree_idempotent env k st t :
  tasks st !! k = Some t →
  path_exists env (worktree_path (workspace st) t) = true →
  (∃ evs, trace (start_task env k st).2 = trace st ++ evs ∧
          no_worktree_add evs = true ∧
          ((start_task env k st).1 = true →
           ∃ script, In (EvPopen script (worktree_path (workspace st) t)) evs)) ∧
  (∀ o, start_task (with_git_outcome o env) k st = start_task env k st) ∧
  (∃ t', tasks (start_task env k st).2 !! k = Some t' ∧
         branch t' = branch t ∧
         worktree_path (workspace (start_task env k st).2) t' =
         worktree_path (workspace st) t) ∧
  worktree_path (workspace st) t =
    workspace st // py ".agent-cluster" // py "worktrees" // replace_char 47 95 (branch t) ∧
  47 ∉ replace_char 47 95 (branch t).
Proof.
  intros Hk Hex. split_and!.
  - destruct (start_body_spec env k t st) as (evs & Hb & Hno).
    exists evs. unfold start_task. rewrite Hk.
    destruct (start_body env k t st) as [[p|e] st'].
    + destruct Hb as [Hin ->]. simpl. split_and!; [done|by apply Hno|].
      intros _. by eexists.
    + subst st'. simpl. split_and!; [done|by apply Hno|done].
  - intros o. by apply (start_task_with_git_outcome o env k st t).
  - destruct (start_task_found env k st t Hk) as (evs & [(p & _ & -> & _)|(e & _ & ->)]);
      simpl; rewrite lookup_alter_eq, Hk; by eexists.
  - done.
  - by apply replace_char_not_elem.
Qed.

(** * Concrete runs *)

Lemma st_init_initial : initial st_init.
Proof.
  exists ws0, NoFile, []. split; [done|]. intros k t. simpl. by rewrite lookup_empty.
Qed.

Lemma st_created_reachable : reachable lower_plain st_created.
Proof.
  apply (reachable_step lower_plain st_init env_ok
           (OpCreate (py "fix database timeout bug") None)).
  - apply reachable_init, st_init_initial.
  - by split.
Qed.

Lemma st_running_reachable : reachable lower_plain st_running.
Proof.
  apply (reachable_step lower_plain st_created env_ok (OpStart k0));
    [apply st_created_reachable|done].
Qed.

Lemma st_stopped_reachable : reachable lower_plain st_stopped.
Proof.
  apply (reachable_step lower_plain st_running env_ok (OpStop k0));
    [apply st_running_reachable|done].
Qed.

Lemma st_running_clocked : clocked lower_plain 100 st_running.
Proof.
  apply (clocked_step lower_plain 100 st_created env_ok (OpStart k0)); [|done|done].
  apply (clocked_step lower_plain 0 st_init env_ok
           (OpCreate (py "fix database timeout bug") None)); [|done|by split].
  apply clocked_init, st_init_initial.
Qed.

Lemma st_running_tracked_running : tracked_running st_running.
Proof.
  apply (step_tracked_running lower_plain env_ok (OpStart k0) st_created).
  - by apply (reachable_invariants lower_plain), st_created_reachable.
  - done.
  - intros k p. change (RUNNING_AGENTS st_created) with (∅ : gmap pystr Popen).
    by rewrite lookup_empty.
  - by left.
Qed.

Example st_running_record :
  tasks st_running !! k0 = Some (mark_running 100 task0) ∧
  RUNNING_AGENTS st_running !! k0 = Some (mkPopen 4242).
Proof. by vm_compute. Qed.

(** The scenario of the specification: create, start, the process ends,
    status. *)
Example end_to_end :
  agent_type task0 = codex ∧
  branch task0 = py "feat/fix-database-timeout-bug" ∧
  worktree_path ws0 task0 =
    ws0 // py ".agent-cluster" // py "worktrees" // py "feat_fix-database-timeout-bug" ∧
  start_task env_ok k0 st_created = (true, st_running) ∧
  (∃ v st', check_task_status env_exited k0 st_running = (TaskInfo v, st') ∧
            view_status v = completed ∧ view_started_at v = Some 100%Z ∧
            view_completed_at v = Some 160%Z ∧ view_error v = None).
Proof.
  split_and!; try by vm_compute.
  eexists _, _. split; [reflexivity|]. by vm_compute.
Qed.

Example select_agent_examples :
  select_agent lower_plain (py "frontend") = claude ∧
  select_agent lower_plain (py "database") = codex ∧
  select_agent lower_plain (py "中文") = glm ∧
  select_agent lower_plain (py "") = codex ∧
  select_agent lower_plain (py "Fix the FRONTEND build") = claude ∧
  select_agent lower_plain (py "write docs") = codex.
Proof. by vm_compute. Qed.

Example derived_branch_truncates :
  branch (create_task lower_plain env_ok
            (py "Add OAuth login flow for the mobile application") None st_init).1
  = py "feat/add-oauth-login-flow-for-the-m".
Proof. by vm_compute. Qed.

(** ** Instances of the theorems *)

Lemma C1_witness :
  (∀ k, (length (entries_of k st_running) ≤ 1)%nat) ∧
  tracked_started (λ _, True) st_running ∧
  tracked_running (step lower_plain env_exited (OpStatus k0) st_running) ∧
  tracked_running (step lower_plain env_ok (OpStop k0) st_running) ∧
  tracked_running (step lower_plain env_ok (OpDelete k0) st_running) ∧
  tracked_running (step lower_plain env_worktree_exists (OpStart k0) st_running).
Proof.
  destruct (C1_live_process_table lower_plain st_running st_running_reachable)
    as (H1 & H2 & H3).
  split_and!; [exact H1|exact H2|..].
  - apply (H3 env_exited (OpStatus k0)); [done|exact st_running_tracked_running|done].
  - apply (H3 env_ok (OpStop k0)); [done|exact st_running_tracked_running|done].
  - apply (H3 env_ok (OpDelete k0)); [done|exact st_running_tracked_running|].
    by vm_compute.
  - apply (H3 env_worktree_exists (OpStart k0)); [done|exact st_running_tracked_running|].
    left. by vm_compute.
Defined.

(** The invariant of C1 fails in a reachable state: a second [start] of
    the running, tracked task raises while writing the prompt; the entry
    of the first process stays in the table and the status is failed. *)
Lemma C1_counterexample :
  reachable lower_plain st_running ∧ tracked_running st_running ∧
  st_restart_failed = step lower_plain env_disk_full (OpStart k0) st_running ∧
  reachable lower_plain st_restart_failed ∧
  RUNNING_AGENTS st_restart_failed !! k0 = Some (mkPopen 4242) ∧
  (status <$> tasks st_restart_failed !! k0) = Some failed ∧
  ¬ tracked_running st_restart_failed.
Proof.
  split_and!.
  - apply st_running_reachable.
  - apply st_running_tracked_running.
  - done.
  - apply (reachable_step lower_plain st_running env_disk_full (OpStart k0));
      [apply st_running_reachable|done].
  - by vm_compute.
  - by vm_compute.
  - intros H. destruct (H k0 (mkPopen 4242)) as (t & Ht & Hs); [by vm_compute|].
    vm_compute in Ht. by simplify_eq.
Qed.

(** A second way out of the invariant of C1: [delete] while the process
    group cannot be signalled removes the record and leaves the entry. *)
Example delete_leaves_entry :
  delete_task env_group_gone k0 st_running = (true, st_deleted_unstopped) ∧
  RUNNING_AGENTS st_deleted_unstopped !! k0 = Some (mkPopen 4242) ∧
  tasks st_deleted_unstopped !! k0 = None.
Proof. by vm_compute. Qed.

Lemma C2_witness :
  (status (mark_completed 160 (mark_running 100 task0)) = status (mark_running 100 task0) ∨
   (status (mark_running 100 task0) = running ∧
    terminal (status (mark_completed 160 (mark_running 100 task0))))) ∧
  (∃ t', tasks (start_task env_disk_full k0 st_running).2 !! k0 = Some t' ∧
         status t' = if (start_task env_disk_full k0 st_running).1
                     then running else failed).
Proof.
  destruct (C2_status_moves lower_plain st_running k0 (mark_running 100 task0))
    as [H1 H2]; [exact st_running_reachable|by vm_compute|].
  split; [|apply H2].
  apply (H1 [(env_exited, OpStatus k0)]).
  - by split.
  - repeat constructor; done.
  - by vm_compute.
Defined.

(** The status of a failed task returns to running: [start] after [stop]. *)
Lemma C2_counterexample :
  reachable lower_plain st_stopped ∧
  (status <$> tasks st_stopped !! k0) = Some failed ∧
  (start_task env_ok k0 st_stopped).1 = true ∧
  (status <$> tasks (step lower_plain env_ok (OpStart k0) st_stopped) !! k0) = Some running.
Proof.
  split_and!; [apply st_stopped_reachable|by vm_compute..].
Qed.

Lemma C3_witness :
  ∃ t' st', check_task_status env_exited k0 st_running = (TaskInfo (make_view t'), st') ∧
            t' = mark_completed 160 (mark_running 100 task0) ∧
            status t' = completed ∧
            completed_at t' = Some 160%Z ∧
            RUNNING_AGENTS st' !! k0 = None ∧
            tasks_file st' = Records (tasks st') ∧
            ∃ s, started_at t' = Some s ∧ (s ≤ 160)%Z.
Proof.
  destruct (C3_status_completes lower_plain env_exited k0 st_running
              (mark_running 100 task0)) as [H _]; [by vm_compute|].
  destruct H as (t' & st' & Hc & Ht & _ & Hs & Hca & _ & Hr & Hf & Hclock).
  - exists (mkPopen 4242), 0%Z. by vm_compute.
  - exists t', st'. split_and!; try done.
    apply (Hclock 100%Z); [exact st_running_clocked|done].
Defined.

(** In the run of [C3_witness] the clock goes from 100 to 160 and the
    stamps are ordered. *)
Example completed_after_started :
  ∃ t', tasks (check_task_status env_exited k0 st_running).2 !! k0 = Some t' ∧
        started_at t' = Some 100%Z ∧ completed_at t' = Some 160%Z.
Proof. eexists. split; [by vm_compute|]. by vm_compute. Qed.

(** The stamp of C3 can precede [started_at]: the task was started when
    the wall clock showed 100; at the poll that finds the process ended the
    clock, set back in between, shows 50. *)
Lemma C3_counterexample :
  reachable lower_plain st_running ∧
  tasks st_running !! k0 = Some (mark_running 100 task0) ∧
  status (mark_running 100 task0) = running ∧
  RUNNING_AGENTS st_running !! k0 = Some (mkPopen 4242) ∧
  proc_poll env_clock_set_back 4242 = Some 0%Z ∧
  ∃ t', tasks (check_task_status env_clock_set_back k0 st_running).2 !! k0 = Some t' ∧
        status t' = completed ∧
        started_at t' = Some 100%Z ∧
        completed_at t' = Some 50%Z ∧
        (50 < 100)%Z.
Proof.
  split_and!; [apply st_running_reachable|by vm_compute..|].
  eexists. split; [by vm_compute|]. by vm_compute.
Qed.

Lemma C4_witness :
  (∃ t' st', stop_task env_ok k0 st_running = (true, st') ∧
             tasks st' !! k0 = Some t' ∧
             t' = mark_failed (py "Stopped by user") (mark_running 100 task0) ∧
             status t' = failed ∧
             error t' = Some (py "Stopped by user") ∧
             RUNNING_AGENTS st' = delete k0 (RUNNING_AGENTS st_running) ∧
             RUNNING_AGENTS st' !! k0 = None ∧
             tasks_file st' = Records (tasks st')) ∧
  stop_task env_ok k0 (restart st_running) = (false, restart st_running) ∧
  (status <$> tasks (restart st_running) !! k0) = Some running.
Proof.
  destruct (C4_stop env_ok k0 st_running (mark_running 100 task0))
    as (H1 & _ & _ & H4); [by vm_compute|].
  split_and!; [|exact H4|by vm_compute].
  apply (H1 (mkPopen 4242)); by vm_compute.
Defined.

(** The error text that [stop_task] stores begins with a capital letter:
    it is not the string "stopped by user". *)
Lemma C4_counterexample :
  tasks st_running !! k0 = Some (mark_running 100 task0) ∧
  RUNNING_AGENTS st_running !! k0 = Some (mkPopen 4242) ∧
  killpg env_ok 4242 = Returns tt ∧
  (stop_task env_ok k0 st_running).1 = true ∧
  (error <$> tasks (stop_task env_ok k0 st_running).2 !! k0)
    = Some (Some (py "Stopped by user")) ∧
  (error <$> tasks (stop_task env_ok k0 st_running).2 !! k0)
    ≠ Some (Some (py "stopped by user")).
Proof.
  split_and!; by vm_compute.
Qed.

Lemma C5_witness :
  start_task env_ok k0 st_init = (false, st_init) ∧
  tasks (start_task env_ok k0 st_init).2 = tasks st_init ∧
  tasks_file (start_task env_ok k0 st_init).2 = tasks_file st_init.
Proof.
  apply (C5_start_unknown_id env_ok k0 st_init). reflexivity.
Defined.

Lemma C6_witness :
  ∃ st', start_task env_disk_full k0 st_created = (false, st') ∧
         tasks st' !! k0 =
           Some (mark_failed (py "[Errno 28] No space left on device") task0) ∧
         status (mark_failed (py "[Errno 28] No space left on device") task0) = failed ∧
         error (mark_failed (py "[Errno 28] No space left on device") task0)
           = Some (py "[Errno 28] No space left on device") ∧
         tasks_file st' = Records (tasks st') ∧
         trace st' = trace (start_body env_disk_full k0 task0 st_created).2 ∧
         ∃ evs, trace (start_body env_disk_full k0 task0 st_created).2
                = trace st_created ++ evs.
Proof.
  apply (C6_start_exception env_disk_full k0 st_created task0
           (py "[Errno 28] No space left on device")
           (start_body env_disk_full k0 task0 st_created).2).
  - by vm_compute.
  - by vm_compute.
Defined.

(** In the run of [C6_witness] the worktree was added before the prompt
    could not be written; the call stays in the trace of the failed start
    and nothing is run after it. *)
Example start_failure_keeps_worktree :
  ∃ evs, trace (start_task env_disk_full k0 st_created).2 = trace st_created ++ evs ∧
         evs = [EvRun (GitWorktreeAdd (worktree_path ws0 task0) (branch task0)) ws0;
                EvWriteText (ws0 // py ".agent-cluster" // py "prompts"
                               // (k0 ++ py ".md"))].
Proof. eexists. split; [|reflexivity]. by vm_compute. Qed.

(** An exception at each of the four stages of the [try] block (worktree,
    dependencies, prompt, launch) ends in the same way: [False], status
    failed, the text of the exception as error, no entry in the table. *)
Example start_failure_at_each_stage :
  Forall (λ '(env, msg),
            (start_task env k0 st_created).1 = false ∧
            tasks (start_task env k0 st_created).2 !! k0 = Some (mark_failed msg task0) ∧
            tasks_file (start_task env k0 st_created).2
              = Records (tasks (start_task env k0 st_created).2) ∧
            RUNNING_AGENTS (start_task env k0 st_created).2 !! k0 = None)
    [ (env_no_git, py "[Errno 2] No such file or directory: 'git'");
      (env_no_npm, py "[Errno 2] No such file or directory: 'npm'");
      (env_disk_full, py "[Errno 28] No space left on device");
      (env_no_exec, py "[Errno 8] Exec format error") ].
Proof. repeat constructor; by vm_compute. Qed.

Lemma C7_witness :
  ∃ st', delete_task env_group_gone k0 st_running = (true, st') ∧
         tasks st' = delete k0 (tasks st_running) ∧
         tasks st' !! k0 = None ∧
         tasks_file st' = Records (tasks st') ∧
         ∀ env', check_task_status env' k0 st' = (TaskNotFound, st').
Proof.
  apply (C7_delete_removes env_group_gone k0 st_running (mark_running 100 task0)).
  by vm_compute.
Defined.

Lemma C8_witness :
  select_agent lower_plain (py "migrate the database schema") = codex ∧
  select_agent lower_plain (py "翻译成中文") = glm ∧
  select_agent lower_plain (py "polish the frontend") = claude.
Proof.
  split_and!.
  - apply (C8_agent_selection lower_plain (py "migrate the database schema"));
      by vm_compute.
  - apply (C8_agent_selection lower_plain (py "翻译成中文")); by vm_compute.
  - apply (C8_agent_selection lower_plain (py "polish the frontend")); by vm_compute.
Defined.

(** A description that contains "database" and is given to claude, and one
    that contains "中文" and is given to codex: an earlier keyword set
    matches ("ui" occurs in "build", "api" is a backend keyword). *)
Lemma C8_counterexample :
  str_in (py "database") (py "build database") = true ∧
  select_agent lower_plain (py "build database") = claude ∧
  str_in (py "中文") (py "中文 api") = true ∧
  select_agent lower_plain (py "中文 api") = codex.
Proof. by vm_compute. Qed.

Lemma C9_witness :
  (∃ evs, trace (start_task env_worktree_exists k0 st_running).2
          = trace st_running ++ evs ∧
          no_worktree_add evs = true ∧
          ((start_task env_worktree_exists k0 st_running).1 = true →
           ∃ script,
             In (EvPopen script (worktree_path (workspace st_running)
                                   (mark_running 100 task0))) evs)) ∧
  (∀ o, start_task (with_git_outcome o env_worktree_exists) k0 st_running
        = start_task env_worktree_exists k0 st_running) ∧
  (∃ t', tasks (start_task env_worktree_exists k0 st_running).2 !! k0 = Some t' ∧
         branch t' = branch (mark_running 100 task0) ∧
         worktree_path (workspace (start_task env_worktree_exists k0 st_running).2) t' =
         worktree_path (workspace st_running) (mark_running 100 task0)) ∧
  worktree_path (workspace st_running) (mark_running 100 task0) =
    workspace st_running // py ".agent-cluster" // py "worktrees"
      // replace_char 47 95 (branch (mark_running 100 task0)) ∧
  47 ∉ replace_char 47 95 (branch (mark_running 100 task0)).
Proof.
  apply (C9_worktree_idempotent env_worktree_exists k0 st_running
           (mark_running 100 task0)).
  - by vm_compute.
  - reflexivity.
Defined.

(** The second start of [C9_witness] runs no git command, and the one of a
    first start (directory absent) does. *)
Example second_start_trace :
  (∃ evs, trace (start_task env_worktree_exists k0 st_running).2
          = trace st_running ++ evs ∧
          filter (λ ev, is_worktree_add ev = true) evs = []) ∧
  (∃ evs, trace (start_task env_ok k0 st_created).2 = trace st_created ++ evs ∧
          filter (λ ev, is_worktree_add ev = true) evs
          = [EvRun (GitWorktreeAdd (worktree_path ws0 task0) (branch task0)) ws0]).
Proof.
  split.
  - eexists. split; [by vm_compute|]. by vm_compute.
  - eexists. split; [by vm_compute|]. by vm_compute.
Qed.

Lemma C10_witness :
  branch (create_task lower_plain env_ok
            (py "Add OAuth login flow for the mobile application") None st_init).1
    = py "feat/" ++ map (λ c, if (65 <=? c) && (c <=? 90) then c + 32 else c)
                        (replace_char 32 45
                           (take 30 (py "Add OAuth login flow for the mobile application"))) ∧
  branch (create_task lower_plain env_ok
            (py "Add OAuth login flow for the mobile application") None st_init).1
    = py "feat/add-oauth-login-flow-for-the-m".
Proof.
  destruct (C10_derived_branch lower_plain env_ok
              (py "Add OAuth login flow for the mobile application") st_init)
    as (_ & _ & _ & Hplain & _).
  destruct Hplain as [Hb _]; [by vm_compute|].
  split; [exact Hb|]. rewrite Hb. by vm_compute.
Defined.

(** * Further properties of the orchestrator *)

(** ** Save and reload *)

(** X1. Every operation saves what it changes: in a reachable state a
    restart reads back exactly the in-memory mapping, with every field of
    every record; only the live-process table is lost. *)
Theorem restart_reloads_store lower_ext st :
  reachable lower_ext st →
  tasks (restart st) = tasks st ∧
  tasks_file (restart st) = tasks_file st ∧
  RUNNING_AGENTS (restart st) = ∅ ∧
  (tasks st ≠ ∅ → tasks_file st = Records (tasks st)).
Proof.
  intros Hr. destruct (reachable_invariants lower_ext st Hr) as (_ & Hp & _).
  unfold persisted in Hp. split_and!; try done.
  intros Hne. destruct (tasks_file st) as [| |m]; simpl in Hp; by subst.
Qed.

Lemma restart_reloads_store_witness :
  tasks (restart st_running) = tasks st_running ∧
  tasks_file (restart st_running) = tasks_file st_running ∧
  RUNNING_AGENTS (restart st_running) = ∅ ∧
  (tasks st_running ≠ ∅ → tasks_file st_running = Records (tasks st_running)).
Proof.
  exact (restart_reloads_store lower_plain st_running st_running_reachable).
Defined.

(** X2. A record file that is missing, or whose content is not a valid
    set of records, gives an empty store; the next save, on the writable
    file of the conventions, puts the current mapping in its place: after
    the first [create_task] the file holds the new record and nothing
    else, and what the file held before is gone. *)
Theorem unreadable_file_is_replaced lower_ext env ws f tr d b :
  f = NoFile ∨ f = Unreadable →
  let r := create_task lower_ext env d b (init ws f tr) in
  tasks (init ws f tr) = ∅ ∧
  tasks r.2 = {[ new_task_id env := r.1 ]} ∧
  tasks_file r.2 = Records {[ new_task_id env := r.1 ]} ∧
  tasks (restart r.2) = {[ new_task_id env := r.1 ]}.
Proof.
  intros [-> | ->]; simpl; by rewrite insert_empty.
Qed.

Lemma unreadable_file_is_replaced_witness :
  tasks (init ws0 Unreadable []) = ∅ ∧
  tasks st_after_unreadable = {[ new_task_id env_ok := task_after_unreadable ]} ∧
  tasks_file st_after_unreadable
    = Records {[ new_task_id env_ok := task_after_unreadable ]} ∧
  tasks (restart st_after_unreadable)
    = {[ new_task_id env_ok := task_after_unreadable ]}.
Proof.
  apply (unreadable_file_is_replaced lower_plain env_ok ws0 Unreadable []
           (py "write docs") None).
  by right.
Defined.

(** ** Unknown ids and failed calls *)

(** X3. Once deleted, an id is unknown to every operation: a second
    delete, a stop and a start return [False], status answers "Task not
    found", and none of them changes the state, whatever the world. *)
Theorem deleted_id_is_unknown env k st st' :
  delete_task env k st = (true, st') →
  ∀ env', delete_task env' k st' = (false, st') ∧
          stop_task env' k st' = (false, st') ∧
          start_task env' k st' = (false, st') ∧
          check_task_status env' k st' = (TaskNotFound, st').
Proof.
  intros Hdel.
  assert (Hk : tasks st' !! k = None).
  { unfold delete_task in Hdel. destruct (tasks st !! k) eqn:Hk0; [|done].
    simplify_eq. simpl. apply lookup_delete_eq. }
  intros env'. unfold delete_task, stop_task, start_task, check_task_status.
  by rewrite Hk.
Qed.

Lemma deleted_id_is_unknown_witness :
  delete_task env_ok k0 st_deleted_unstopped = (false, st_deleted_unstopped) ∧
  stop_task env_ok k0 st_deleted_unstopped = (false, st_deleted_unstopped) ∧
  start_task env_ok k0 st_deleted_unstopped = (false, st_deleted_unstopped) ∧
  check_task_status env_ok k0 st_deleted_unstopped
    = (TaskNotFound, st_deleted_unstopped).
Proof.
  apply (deleted_id_is_unknown env_group_gone k0 st_running st_deleted_unstopped).
  reflexivity.
Defined.

(** X4. [stop_task] returns [False] before it has changed anything in
    each of these cases: the id is unknown, the task has no table entry,
    or the signalling call raises.  Records, table and record file are then
    as before.  It returns [True] only for a known task with an entry whose
    signalling call returned.  [delete_task] returns [False] exactly for an
    unknown id, and then changes nothing. *)
Theorem failed_stop_changes_nothing env k st :
  ((tasks st !! k = None ∨ RUNNING_AGENTS st !! k = None ∨
    (∃ proc e, RUNNING_AGENTS st !! k = Some proc ∧
               killpg env (pid proc) = Raises e)) →
   (stop_task env k st).1 = false ∧
   tasks (stop_task env k st).2 = tasks st ∧
   RUNNING_AGENTS (stop_task env k st).2 = RUNNING_AGENTS st ∧
   tasks_file (stop_task env k st).2 = tasks_file st) ∧
  ((stop_task env k st).1 = true →
   ∃ t proc, tasks st !! k = Some t ∧ RUNNING_AGENTS st !! k = Some proc ∧
             killpg env (pid proc) = Returns tt) ∧
  ((delete_task env k st).1 = false ↔ tasks st !! k = None) ∧
  (tasks st !! k = None → delete_task env k st = (false, st)).
Proof.
  split_and!.
  - unfold stop_task. intros [Hk|[Hr|(proc & e & Hr & Hkill)]].
    + by rewrite Hk.
    + rewrite Hr. by destruct (tasks st !! k).
    + rewrite Hr, Hkill. by destruct (tasks st !! k).
  - destruct (stop_task_effect env k st) as [[Hf _]|(t & proc & Hk & Hr & Hkill & _)].
    + rewrite Hf. discriminate.
    + intros _. by exists t, proc.
  - unfold delete_task. destruct (tasks st !! k); simpl; split; done.
  - intros Hk. unfold delete_task. by rewrite Hk.
Qed.

Lemma failed_stop_changes_nothing_witness :
  (stop_task env_group_gone k0 st_running).1 = false ∧
  tasks (stop_task env_group_gone k0 st_running).2 = tasks st_running ∧
  RUNNING_AGENTS (stop_task env_group_gone k0 st_running).2
    = RUNNING_AGENTS st_running ∧
  tasks_file (stop_task env_group_gone k0 st_running).2 = tasks_file st_running.
Proof.
  apply (failed_stop_changes_nothing env_group_gone k0 st_running).
  right; right. exists (mkPopen 4242), (py "[Errno 3] No such process").
  by vm_compute.
Defined.

(** ** What an operation leaves alone *)

(** X7. An operation on one task changes no other task: the records and
    the table entries under every other id are the same before and after
    create, start, status, stop and delete. *)
Theorem other_tasks_untouched lower_ext env op st k k' :
  keys_match (tasks st) → target env op = Some k → k' ≠ k →
  tasks (step lower_ext env op st) !! k' = tasks st !! k' ∧
  RUNNING_AGENTS (step lower_ext env op st) !! k' = RUNNING_AGENTS st !! k'.
Proof.
  intros Hm Ht Hne. destruct op as [d b|k1|k1|k1|k1|]; simpl in Ht; simplify_eq; simpl.
  - by rewrite lookup_insert_ne.
  - destruct (start_task_effect env k st) as [[-> _]|(t & evs & Hk & [[p ->]|[e ->]])];
      simpl; [done| |].
    + rewrite (Hm _ _ Hk). by rewrite lookup_alter_ne, lookup_insert_ne.
    + by rewrite lookup_alter_ne.
  - destruct (check_task_status_effect env k st)
      as [->|(t & proc & rc & _ & _ & _ & _ & ->)]; [done|].
    simpl. by rewrite lookup_alter_ne, lookup_delete_ne.
  - destruct (stop_task_effect env k st) as [[_ [evs ->]]|(t & proc & _ & _ & _ & ->)];
      [done|]. simpl. by rewrite lookup_alter_ne, lookup_delete_ne.
  - unfold delete_task. destruct (tasks st !! k) eqn:Hk; [|done]. simpl.
    rewrite lookup_delete_ne by done.
    destruct (stop_task_effect env k st) as [[_ [evs ->]]|(t1 & proc & _ & _ & _ & ->)];
      [done|]. simpl. by rewrite lookup_alter_ne, lookup_delete_ne.
Qed.

Lemma other_tasks_untouched_witness :
  tasks (step lower_plain env_ok (OpDelete k0) st_running) !! py "task-11111111"
    = tasks st_running !! py "task-11111111" ∧
  RUNNING_AGENTS (step lower_plain env_ok (OpDelete k0) st_running) !! py "task-11111111"
    = RUNNING_AGENTS st_running !! py "task-11111111".
Proof.
  apply (other_tasks_untouched lower_plain env_ok (OpDelete k0) st_running k0).
  - by apply (reachable_invariants lower_plain), st_running_reachable.
  - reflexivity.
  - by vm_compute.
Defined.

Lemma evolves_trans t1 t2 t3 : evolves t1 t2 → evolves t2 t3 → evolves t1 t3.
Proof.
  intros H12 H23. induction H23; [done|constructor; auto..].
Qed.

Lemma step_evolves lower_ext env op st k t t' :
  persisted st → op_ok env op st →
  tasks st !! k = Some t → tasks (step lower_ext env op st) !! k = Some t' →
  evolves t t'.
Proof.
  intros Hp Hok Hk.
  assert (Halter : ∀ f k1, (∀ x, evolves x (f x)) →
                   alter f k1 (tasks st) !! k = Some t' → evolves t t').
  { intros f k1 Hf. rewrite lookup_alter. case_decide as E; [subst k1|];
      rewrite Hk; simpl; intros [= <-]; [apply Hf|constructor]. }
  destruct op as [d b|k1|k1|k1|k1|]; simpl.
  - destruct Hok as [Hfresh _]. simpl in *.
    rewrite lookup_insert_ne by congruence. rewrite Hk. intros [= <-]. constructor.
  - destruct (start_task_effect env k1 st) as [[-> _]|(t1 & evs & Hk1 & [[p ->]|[e ->]])];
      simpl.
    + rewrite Hk. intros [= <-]. constructor.
    + apply Halter. intros x. repeat constructor.
    + apply Halter. intros x. repeat constructor.
  - destruct (check_task_status_effect env k1 st)
      as [->|(t1 & proc & rc & _ & _ & _ & _ & ->)]; simpl.
    + rewrite Hk. intros [= <-]. constructor.
    + apply Halter. intros x. repeat constructor.
  - destruct (stop_task_effect env k1 st) as [[_ [evs ->]]|(t1 & proc & _ & _ & _ & ->)];
      simpl.
    + rewrite Hk. intros [= <-]. constructor.
    + apply Halter. intros x. repeat constructor.
  - unfold delete_task. destruct (tasks st !! k1) eqn:Hk1;
      [|simpl; rewrite Hk; intros [= <-]; constructor].
    simpl. rewrite lookup_delete. case_decide; [done|].
    destruct (stop_task_tasks env k1 st) as [->| ->].
    + rewrite Hk. intros [= <-]. constructor.
    + apply Halter. intros x. repeat constructor.
  - unfold persisted in Hp. rewrite Hp, Hk. intros [= <-]. constructor.
Qed.

Lemma run_evolves lower_ext l : ∀ st k t t',
  reachable lower_ext st → run_ok lower_ext l st →
  Forall (λ eo, eo.2 ≠ OpDelete k) l →
  tasks st !! k = Some t → tasks (run lower_ext l st) !! k = Some t' →
  evolves t t'.
Proof.
  induction l as [|[env op] l IH]; simpl; intros st k t t' Hr Hok Hall Hk Hk'.
  - simplify_eq. constructor.
  - destruct Hok as [Hok Hoks]. apply Forall_cons in Hall as [Hnd Hall]. simpl in *.
    destruct (reachable_invariants lower_ext st Hr) as (Hm & Hp & Ht).
    destruct (step_keeps_record lower_ext env op st k t Hp Hok Hnd Hk) as [t1 Hk1].
    eapply evolves_trans; [by eapply step_evolves|].
    eapply IH; [by apply reachable_step|done..].
Qed.

Lemma evolves_fields t t' :
  evolves t t' →
  id t' = id t ∧ description t' = description t ∧ agent_type t' = agent_type t ∧
  branch t' = branch t ∧ pr_url t' = pr_url t ∧
  (is_Some (started_at t) → is_Some (started_at t')) ∧
  (is_Some (completed_at t) → is_Some (completed_at t')) ∧
  (is_Some (error t) → is_Some (error t')).
Proof.
  induction 1 as [t|now t t' _ IH|e t t' _ IH|now t t' _ IH]; simpl;
    [by split_and!|..]; destruct IH as (?&?&?&?&?&?&?&?); split_and!; eauto.
Qed.

(** X8. As long as a task is not deleted, no sequence of operations changes
    its id, description, agent type, branch or [pr_url], and none clears a
    [started_at], a [completed_at] or an [error] that is set: a record only
    changes through the status, the two time stamps and the error text. *)
Theorem record_fields_are_kept lower_ext st l k t t' :
  reachable lower_ext st → run_ok lower_ext l st →
  Forall (λ eo, eo.2 ≠ OpDelete k) l →
  tasks st !! k = Some t → tasks (run lower_ext l st) !! k = Some t' →
  id t' = id t ∧ description t' = description t ∧ agent_type t' = agent_type t ∧
  branch t' = branch t ∧ pr_url t' = pr_url t ∧
  (is_Some (started_at t) → is_Some (started_at t')) ∧
  (is_Some (completed_at t) → is_Some (completed_at t')) ∧
  (is_Some (error t) → is_Some (error t')).
Proof.
  intros Hr Hok Hall Hk Hk'. apply evolves_fields. by eapply run_evolves.
Qed.

Lemma record_fields_are_kept_witness :
  id (mark_running 100 (mark_failed (py "Stopped by user") (mark_running 100 task0)))
    = id task0 ∧
  description (mark_running 100 (mark_failed (py "Stopped by user")
                                   (mark_running 100 task0)))
    = description task0 ∧
  agent_type (mark_running 100 (mark_failed (py "Stopped by user")
                                  (mark_running 100 task0)))
    = agent_type task0 ∧
  branch (mark_running 100 (mark_failed (py "Stopped by user") (mark_running 100 task0)))
    = branch task0 ∧
  pr_url (mark_running 100 (mark_failed (py "Stopped by user") (mark_running 100 task0)))
    = pr_url task0.
Proof.
  destruct (record_fields_are_kept lower_plain st_created
              [(env_ok, OpStart k0); (env_ok, OpStop k0); (env_ok, OpStart k0)] k0
              task0
              (mark_running 100 (mark_failed (py "Stopped by user")
                                   (mark_running 100 task0))))
    as (H1 & H2 & H3 & H4 & H5 & _).
  - exact st_created_reachable.
  - by repeat split.
  - repeat constructor; done.
  - by vm_compute.
  - by vm_compute.
  - by split_and!.
Defined.

(** The error of an earlier failure survives a later successful start: the
    task is running and still carries "Stopped by user". *)
Example error_survives_restart :
  ∃ t', tasks (run lower_plain
                 [(env_ok, OpStart k0); (env_ok, OpStop k0); (env_ok, OpStart k0)]
                 st_created) !! k0 = Some t' ∧
        status t' = running ∧ error t' = Some (py "Stopped by user").
Proof. eexists. split; [by vm_compute|]. by vm_compute. Qed.

(** ** Listing *)

Lemma check_task_status_local env k st1 st :
  tasks st1 !! k = tasks st !! k →
  RUNNING_AGENTS st1 !! k = RUNNING_AGENTS st !! k →
  (check_task_status env k st1).1 = (check_task_status env k st).1 ∧
  tasks (check_task_status env k st1).2 !! k = tasks (check_task_status env k st).2 !! k ∧
  RUNNING_AGENTS (check_task_status env k st1).2 !! k
    = RUNNING_AGENTS (check_task_status env k st).2 !! k.
Proof.
  intros Ht Hr. unfold check_task_status. rewrite Ht, Hr.
  destruct (tasks st !! k) as [t|] eqn:Hk; [|simpl; split_and!; congruence].
  destruct (status t); try (simpl; split_and!; congruence).
  destruct (RUNNING_AGENTS st !! k) as [proc|] eqn:Hproc;
    [|simpl; split_and!; congruence].
  destruct (proc_poll env (pid proc)); [|simpl; split_and!; congruence].
  simpl. by rewrite !lookup_alter_eq, !lookup_delete_eq, Ht, Hk.
Qed.

Lemma check_task_status_other env k st k' :
  k' ≠ k →
  tasks (check_task_status env k st).2 !! k' = tasks st !! k' ∧
  RUNNING_AGENTS (check_task_status env k st).2 !! k' = RUNNING_AGENTS st !! k'.
Proof.
  intros Hne.
  destruct (check_task_status_effect env k st)
    as [->|(t & proc & rc & _ & _ & _ & _ & ->)]; [done|].
  simpl. by rewrite lookup_alter_ne, lookup_delete_ne.
Qed.

Lemma list_tasks_spec world order : ∀ st,
  NoDup order →
  (list_tasks world order st).1
    = map (λ k, (check_task_status (world k) k st).1) order ∧
  ∀ k,
    (k ∈ order →
     tasks (list_tasks world order st).2 !! k
       = tasks (check_task_status (world k) k st).2 !! k ∧
     RUNNING_AGENTS (list_tasks world order st).2 !! k
       = RUNNING_AGENTS (check_task_status (world k) k st).2 !! k) ∧
    (k ∉ order →
     tasks (list_tasks world order st).2 !! k = tasks st !! k ∧
     RUNNING_AGENTS (list_tasks world order st).2 !! k = RUNNING_AGENTS st !! k).
Proof.
  induction order as [|tid rest IH]; intros st Hnd; simpl.
  - split; [done|]. intros k. split; [by intros ?%elem_of_nil|done].
  - apply NoDup_cons in Hnd as [Hnot Hnd].
    destruct (IH (check_task_status (world tid) tid st).2 Hnd) as [Hrs Hst].
    split.
    + f_equal. rewrite Hrs. apply map_ext_in. intros k Hin.
      apply list_elem_of_In in Hin.
      assert (k ≠ tid) by (intros ->; done).
      destruct (check_task_status_other (world tid) tid st k) as [H1 H2]; [done|].
      by destruct (check_task_status_local (world k) k _ st H1 H2) as (-> & _).
    + intros k. destruct (Hst k) as [Hin Hout]. split.
      * intros [->|Hk]%elem_of_cons.
        -- by apply Hout.
        -- assert (k ≠ tid) by (intros ->; done).
           destruct (check_task_status_other (world tid) tid st k) as [H1 H2]; [done|].
           destruct (check_task_status_local (world k) k _ st H1 H2) as (_ & <- & <-).
           by apply Hin.
      * intros Hk. apply not_elem_of_cons in Hk as [Hne Hk].
        destruct (check_task_status_other (world tid) tid st k) as [<- <-]; [done|].
        by apply Hout.
Qed.

(** X9. [list_tasks] treats every task as a single status call on the
    state before the listing does: the views it returns, the records and
    the table entries afterwards are those of [check_task_status] on each
    id, in whatever order the ids come, and no view is "Task not found". *)
Theorem list_tasks_is_status_on_each world order st :
  key_order st order →
  (list_tasks world order st).1
    = map (λ k, (check_task_status (world k) k st).1) order ∧
  Forall (λ r, r ≠ TaskNotFound) (list_tasks world order st).1 ∧
  ∀ k, tasks (list_tasks world order st).2 !! k
         = tasks (check_task_status (world k) k st).2 !! k ∧
       RUNNING_AGENTS (list_tasks world order st).2 !! k
         = RUNNING_AGENTS (check_task_status (world k) k st).2 !! k.
Proof.
  intros [Hnd Hkeys]. destruct (list_tasks_spec world order st Hnd) as [Hrs Hst].
  split_and!; [done| |].
  - rewrite Hrs. apply Forall_forall. intros r (k & -> & Hk)%list_elem_of_fmap.
    apply Hkeys in Hk as [t Hk]. unfold check_task_status. rewrite Hk.
    by repeat case_match.
  - intros k. destruct (decide (k ∈ order)) as [Hin|Hout]; [by apply Hst|].
    assert (Hk : tasks st !! k = None).
    { apply eq_None_not_Some. intros Hs. by apply Hout, Hkeys. }
    rewrite (check_task_status_unknown _ k st Hk). by apply Hst.
Qed.

Lemma list_tasks_is_status_on_each_witness :
  (list_tasks (λ _, env_exited) [k0] st_running).1
    = map (λ k, (check_task_status env_exited k st_running).1) [k0] ∧
  Forall (λ r, r ≠ TaskNotFound) (list_tasks (λ _, env_exited) [k0] st_running).1 ∧
  ∀ k, tasks (list_tasks (λ _, env_exited) [k0] st_running).2 !! k
         = tasks (check_task_status env_exited k st_running).2 !! k ∧
       RUNNING_AGENTS (list_tasks (λ _, env_exited) [k0] st_running).2 !! k
         = RUNNING_AGENTS (check_task_status env_exited k st_running).2 !! k.
Proof.
  apply (list_tasks_is_status_on_each (λ _, env_exited) [k0] st_running).
  split.
  - apply NoDup_singleton.
  - intros k. rewrite list_elem_of_singleton.
    change (tasks st_running) with (<[k0 := mark_running 100 task0]>
                                      (∅ : gmap pystr Task)) at 1.
    rewrite lookup_insert_is_Some, lookup_empty. split; [by left|].
    intros [?|[_ []%is_Some_None]]; done.
Defined.

(** ** After a restart *)

Lemma untracked_status_and_stop env k st :
  RUNNING_AGENTS st !! k = None →
  (check_task_status env k st).2 = st ∧ stop_task env k st = (false, st).
Proof.
  intros Hr. unfold check_task_status, stop_task. rewrite Hr.
  by repeat case_match.
Qed.

(** X10. After a restart the live-process table is empty and stays so under
    status, list and stop: no sequence of such calls changes anything, so a
    task that the record file shows as running stays running until it is
    started again or deleted. *)
Theorem restart_freezes_status lower_ext st l :
  Forall (λ eo, is_status_or_stop eo.2 = true) l →
  run lower_ext l (restart st) = restart st.
Proof.
  induction 1 as [|[env op] l Hop _ IH]; simpl; [done|].
  destruct op as [d b|k|k|k|k|]; try done; simpl in *.
  - destruct (untracked_status_and_stop env k (restart st)) as [-> _]; [|done].
    simpl. apply lookup_empty.
  - destruct (untracked_status_and_stop env k (restart st)) as [_ ->]; [|done].
    simpl. apply lookup_empty.
Qed.

Lemma restart_freezes_status_witness :
  run lower_plain [(env_exited, OpStatus k0); (env_ok, OpStop k0);
                   (env_exited, OpStatus k0)] (restart st_running)
  = restart st_running ∧
  (status <$> tasks (restart st_running) !! k0) = Some running.
Proof.
  split; [|by vm_compute].
  apply (restart_freezes_status lower_plain st_running). by repeat constructor.
Defined.

(** ** External commands of a start *)

Lemma install_deps_returncodes f env wt st :
  _install_deps (with_returncodes f env) wt st = _install_deps env wt st.
Proof.
  unfold _install_deps. simpl. unfold_M.
  repeat (destruct (path_exists env _); [by destruct (subprocess_run env _ _)|]).
  done.
Qed.

Lemma start_body_returncodes f env k t st :
  start_body (with_returncodes f env) k t st = start_body env k t st.
Proof.
  unfold start_body. unfold_M. simpl.
  destruct (path_exists env _); simpl.
  - by rewrite install_deps_returncodes.
  - destruct (subprocess_run env _ _); simpl; [|done].
    by rewrite install_deps_returncodes.
Qed.

(** X11. [start_task] never looks at a return code: whatever exit codes
    [git worktree add] and the dependency installer return, the result,
    the records, the table and the external calls of the start are the
    same.  Only an exception of [subprocess.run] makes a difference. *)
Theorem start_ignores_returncodes f env k st :
  start_task (with_returncodes f env) k st = start_task env k st.
Proof.
  unfold start_task. destruct (tasks st !! k) as [t|]; [|done].
  by rewrite start_body_returncodes.
Qed.

Lemma install_deps_cases env wt st :
  let run c := (match subprocess_run env c wt with
                | Returns _ => Returns tt
                | Raises e => Raises e
                end, add_trace [EvRun c wt] st) in
  _install_deps env wt st =
    if path_exists env (wt // py "package.json") then run NpmInstall
    else if path_exists env (wt // py "pom.xml") then run MvnCompile
    else if path_exists env (wt // py "requirements.txt") then run PipInstallRequirements
    else if path_exists env (wt // py "go.mod") then run GoModDownload
    else (Returns tt, st).
Proof.
  unfold _install_deps. unfold_M. unfold emit.
  repeat (destruct (path_exists env _); [by destruct (subprocess_run env _ _)|]).
  done.
Qed.

(** X12. [_install_deps] runs at most one command, in the worktree: npm
    install for package.json, else mvn compile for pom.xml, else pip
    install -r requirements.txt for requirements.txt, else go mod download
    for go.mod, the first manifest found in this order deciding even when
    several are present.  Without a manifest it runs nothing and returns.
    It returns whenever the command returns, whatever the return code, and
    raises exactly the exception of the command; it changes neither
    records nor table. *)
Theorem install_deps_runs_one_installer env wt st :
  ∃ o evs,
    _install_deps env wt st = (o, add_trace evs st) ∧
    (length evs ≤ 1)%nat ∧
    (path_exists env (wt // py "package.json") = true → evs = [EvRun NpmInstall wt]) ∧
    (path_exists env (wt // py "package.json") = false →
     path_exists env (wt // py "pom.xml") = true → evs = [EvRun MvnCompile wt]) ∧
    (path_exists env (wt // py "package.json") = false →
     path_exists env (wt // py "pom.xml") = false →
     path_exists env (wt // py "requirements.txt") = true →
     evs = [EvRun PipInstallRequirements wt]) ∧
    (path_exists env (wt // py "package.json") = false →
     path_exists env (wt // py "pom.xml") = false →
     path_exists env (wt // py "requirements.txt") = false →
     path_exists env (wt // py "go.mod") = true → evs = [EvRun GoModDownload wt]) ∧
    (path_exists env (wt // py "package.json") = false →
     path_exists env (wt // py "pom.xml") = false →
     path_exists env (wt // py "requirements.txt") = false →
     path_exists env (wt // py "go.mod") = false → evs = [] ∧ o = Returns tt) ∧
    (∀ c, evs = [EvRun c wt] →
          (∀ rc, subprocess_run env c wt = Returns rc → o = Returns tt) ∧
          (∀ e, subprocess_run env c wt = Raises e → o = Raises e)) ∧
    (∀ e, o = Raises e → ∃ c, evs = [EvRun c wt] ∧ subprocess_run env c wt = Raises e).
Proof.
  rewrite install_deps_cases. cbv zeta.
  destruct (path_exists env (wt // py "package.json")) eqn:H1;
    [|destruct (path_exists env (wt // py "pom.xml")) eqn:H2;
      [|destruct (path_exists env (wt // py "requirements.txt")) eqn:H3;
        [|destruct (path_exists env (wt // py "go.mod")) eqn:H4]]].
  5:{ exists (Returns tt), []. rewrite add_trace_nil.
      split_and!; try done. simpl. lia. }
  all: eexists _, [_];
    (split; [reflexivity|]); (split; [simpl; lia|]);
    (split; [intros; congruence|]); (split; [intros; congruence|]);
    (split; [intros; congruence|]); (split; [intros; congruence|]);
    (split; [intros; congruence|]);
    (split; [intros c [= <-]; split; [intros rc ->|intros e ->]; reflexivity|]);
    intros e He; eexists; (split; [reflexivity|]);
    revert He; destruct (subprocess_run env _ wt) as [rc|e'];
    [discriminate|by intros [= ->]].
Qed.

Lemma install_deps_runs_one_installer_witness :
  ∃ o evs,
    _install_deps env_worktree_exists (worktree_path ws0 task0) st_created
      = (o, add_trace evs st_created) ∧
    evs = [EvRun NpmInstall (worktree_path ws0 task0)] ∧
    o = Returns tt.
Proof.
  destruct (install_deps_runs_one_installer env_worktree_exists
              (worktree_path ws0 task0) st_created)
    as (o & evs & H & _ & Hnpm & _ & _ & _ & _ & Hout & _).
  exists o, evs. split; [exact H|].
  assert (Hevs : evs = [EvRun NpmInstall (worktree_path ws0 task0)])
    by (apply Hnpm; reflexivity).
  split; [exact Hevs|].
  destruct (Hout NpmInstall Hevs) as [Hret _]. apply (Hret 0%Z). reflexivity.
Defined.

(** With only a [go.mod] in the worktree the command is [go mod download],
    and with only a [requirements.txt] it is [pip install -r]. *)
Example install_deps_go_and_pip :
  (_install_deps (mkEnv (λ p, match p with
                              | PathDiv _ s => bool_decide (s = py "go.mod")
                              | _ => false
                              end)
                        (subprocess_run env_ok) (write_text env_ok) (chmod env_ok)
                        (open_log env_ok) (Popen_spawn env_ok) (killpg env_ok)
                        (proc_poll env_ok) 100%Z (py "0a1b2c3d"))
                 (worktree_path ws0 task0) st_created).2
    = add_trace [EvRun GoModDownload (worktree_path ws0 task0)] st_created ∧
  (_install_deps (mkEnv (λ p, match p with
                              | PathDiv _ s => bool_decide (s = py "requirements.txt")
                              | _ => false
                              end)
                        (subprocess_run env_ok) (write_text env_ok) (chmod env_ok)
                        (open_log env_ok) (Popen_spawn env_ok) (killpg env_ok)
                        (proc_poll env_ok) 100%Z (py "0a1b2c3d"))
                 (worktree_path ws0 task0) st_created).2
    = add_trace [EvRun PipInstallRequirements (worktree_path ws0 task0)] st_created.
Proof. split; by vm_compute. Qed.

Lemma no_popen_app evs1 evs2 :
  no_popen (evs1 ++ evs2) = no_popen evs1 && no_popen evs2.
Proof. apply forallb_app. Qed.

Lemma install_deps_no_popen env wt st :
  ∃ o evs, _install_deps env wt st = (o, add_trace evs st) ∧ no_popen evs = true.
Proof.
  rewrite install_deps_cases. cbv zeta.
  repeat (destruct (path_exists env _); [by eexists _, [_]|]).
  exists (Returns tt), []. by rewrite add_trace_nil.
Qed.

Lemma start_agent_cases env task wt pf st :
  ∃ evs, no_popen evs = true ∧
    ((∃ e, _start_agent env task wt pf st = (Raises e, add_trace evs st)) ∨
     (∃ e, Popen_spawn env (script_path (workspace st) task) wt = Raises e ∧
           _start_agent env task wt pf st =
             (Raises e,
              add_trace (evs ++ [EvPopen (script_path (workspace st) task) wt]) st)) ∨
     (∃ p, Popen_spawn env (script_path (workspace st) task) wt = Returns p ∧
           _start_agent env task wt pf st =
             (Returns p,
              set_RUNNING_AGENTS (<[id task := mkPopen p]> (RUNNING_AGENTS st))
                (add_trace (evs ++ [EvPopen (script_path (workspace st) task) wt]) st)))).
Proof.
  unfold _start_agent, script_path. unfold_M. unfold emit.
  destruct (write_text env _) as [[]|e1]; simpl;
    [|eexists; split; [|left; by eexists]; done].
  destruct (chmod env _) as [[]|e2]; simpl; rewrite ?add_trace_add_trace;
    [|eexists; split; [|left; by eexists]; done].
  destruct (open_log env _) as [[]|e3]; simpl; rewrite ?add_trace_add_trace;
    [|eexists; split; [|left; by eexists]; done].
  destruct (Popen_spawn env _ _) as [p|e4] eqn:Hp; simpl;
    rewrite ?add_trace_add_trace.
  - eexists [_; _; _]; split; [|right; right; exists p; split; [done|reflexivity]].
    done.
  - eexists [_; _; _]; split; [|right; left; exists e4; split; [done|reflexivity]].
    done.
Qed.

Lemma start_task_cases env k st t :
  tasks st !! k = Some t →
  ∃ pre, no_popen pre = true ∧
    ((∃ e, start_task env k st =
             (false, _save_tasks (update_task k (mark_failed e) (add_trace pre st)))) ∨
     (∃ e, Popen_spawn env (script_path (workspace st) t)
                       (worktree_path (workspace st) t) = Raises e ∧
           start_task env k st =
             (false, _save_tasks (update_task k (mark_failed e)
                        (add_trace (pre ++ [EvPopen (script_path (workspace st) t)
                                              (worktree_path (workspace st) t)]) st)))) ∨
     (∃ p, Popen_spawn env (script_path (workspace st) t)
                       (worktree_path (workspace st) t) = Returns p ∧
           start_task env k st =
             (true, started env k t p
                      (pre ++ [EvPopen (script_path (workspace st) t)
                                 (worktree_path (workspace st) t)]) st))).
Proof.
  intros Hk. unfold start_task. rewrite Hk. unfold start_body.
  set (wt := worktree_path (workspace st) t).
  set (pf := workspace st // py ".agent-cluster" // py "prompts" // (k ++ py ".md")).
  assert (Hrest : ∀ evs0, no_popen evs0 = true →
    ∃ pre, no_popen pre = true ∧
      ((∃ e, (_install_deps env wt ;;
              external (EvWriteText pf) (write_text env pf) ;;
              p ← _start_agent env t wt pf ;
              modify (update_task k (mark_running (datetime_now env))) ;;
              modify _save_tasks ;; mret p) (add_trace evs0 st)
             = (Raises e, add_trace pre st)) ∨
       (∃ e, Popen_spawn env (script_path (workspace st) t) wt = Raises e ∧
             (_install_deps env wt ;;
              external (EvWriteText pf) (write_text env pf) ;;
              p ← _start_agent env t wt pf ;
              modify (update_task k (mark_running (datetime_now env))) ;;
              modify _save_tasks ;; mret p) (add_trace evs0 st)
             = (Raises e, add_trace (pre ++ [EvPopen (script_path (workspace st) t) wt]) st)) ∨
       (∃ p, Popen_spawn env (script_path (workspace st) t) wt = Returns p ∧
             (_install_deps env wt ;;
              external (EvWriteText pf) (write_text env pf) ;;
              p ← _start_agent env t wt pf ;
              modify (update_task k (mark_running (datetime_now env))) ;;
              modify _save_tasks ;; mret p) (add_trace evs0 st)
             = (Returns p, started env k t p
                             (pre ++ [EvPopen (script_path (workspace st) t) wt]) st)))).
  { intros evs0 Hno0. unfold_M.
    destruct (install_deps_no_popen env wt (add_trace evs0 st)) as (o & evs1 & -> & Hno1).
    rewrite add_trace_add_trace.
    destruct o as [[]|e1].
    2:{ eexists; split; [|left; by eexists]. by rewrite no_popen_app, Hno0, Hno1. }
    unfold emit. rewrite add_trace_add_trace.
    destruct (write_text env pf) as [[]|e2].
    2:{ eexists; split; [|left; by eexists]. by rewrite !no_popen_app, Hno0, Hno1. }
    destruct (start_agent_cases env t wt pf
                (add_trace ((evs0 ++ evs1) ++ [EvWriteText pf]) st))
      as (evs2 & Hno2 & [(e & ->)|[(e & Hp & ->)|(p & Hp & ->)]]); simpl in *;
      rewrite add_trace_add_trace.
    - eexists; split; [|left; by eexists].
      by rewrite !no_popen_app, Hno0, Hno1, Hno2.
    - exists (((evs0 ++ evs1) ++ [EvWriteText pf]) ++ evs2).
      split; [by rewrite !no_popen_app, Hno0, Hno1, Hno2|].
      right; left. exists e. split; [done|]. by rewrite <- !app_assoc.
    - exists (((evs0 ++ evs1) ++ [EvWriteText pf]) ++ evs2).
      split; [by rewrite !no_popen_app, Hno0, Hno1, Hno2|].
      right; right. exists p. split; [done|]. by rewrite <- !app_assoc. }
  unfold_M. unfold emit in *.
  destruct (path_exists env wt); simpl.
  - destruct (Hrest [] eq_refl) as (pre & Hno & H). rewrite add_trace_nil in H.
    exists pre. split; [done|].
    destruct H as [(e & ->)|[(e & Hp & ->)|(p & Hp & ->)]]; eauto 6.
  - destruct (subprocess_run env _ _) as [rc|e0].
    + destruct (Hrest [EvRun (GitWorktreeAdd wt (branch t)) (workspace st)] eq_refl)
        as (pre & Hno & H).
      exists pre. split; [done|].
      destruct H as [(e & ->)|[(e & Hp & ->)|(p & Hp & ->)]]; eauto 6.
    + eexists. split; [|left; by eexists]. done.
Qed.

(** X13. A start spawns at most one process, and the spawn is its last
    external call.  If the spawn returned a process, [start_task] returns [True]
    and the table holds that process under the id of the task, in place of
    any earlier handle; if [start_task] returns [False], the table is
    unchanged: a failed start leaves no process running unrecorded. *)
Theorem start_spawns_at_most_once env k st t :
  tasks st !! k = Some t →
  let script := script_path (workspace st) t in
  let wt := worktree_path (workspace st) t in
  let r := start_task env k st in
  ∃ pre, no_popen pre = true ∧
    ((r.1 = false ∧ trace r.2 = trace st ++ pre ∧
      RUNNING_AGENTS r.2 = RUNNING_AGENTS st) ∨
     (r.1 = false ∧ (∃ e, Popen_spawn env script wt = Raises e) ∧
      trace r.2 = trace st ++ pre ++ [EvPopen script wt] ∧
      RUNNING_AGENTS r.2 = RUNNING_AGENTS st) ∨
     (r.1 = true ∧
      ∃ p, Popen_spawn env script wt = Returns p ∧
           trace r.2 = trace st ++ pre ++ [EvPopen script wt] ∧
           RUNNING_AGENTS r.2 = <[id t := mkPopen p]> (RUNNING_AGENTS st))).
Proof.
  intros Hk. cbv zeta.
  destruct (start_task_cases env k st t Hk)
    as (pre & Hno & [(e & ->)|[(e & Hp & ->)|(p & Hp & ->)]]);
    exists pre; (split; [done|]); simpl.
  - by left.
  - right; left. split_and!; [done|by exists e|done|done].
  - right; right. split; [done|]. by exists p.
Qed.

Lemma start_spawns_at_most_once_witness :
  ∃ pre, no_popen pre = true ∧
    (((start_task env_worktree_exists k0 st_running).1 = false ∧
      trace (start_task env_worktree_exists k0 st_running).2 = trace st_running ++ pre ∧
      RUNNING_AGENTS (start_task env_worktree_exists k0 st_running).2
        = RUNNING_AGENTS st_running) ∨
     ((start_task env_worktree_exists k0 st_running).1 = false ∧
      (∃ e, Popen_spawn env_worktree_exists
              (script_path (workspace st_running) (mark_running 100 task0))
              (worktree_path (workspace st_running) (mark_running 100 task0))
            = Raises e) ∧
      trace (start_task env_worktree_exists k0 st_running).2
        = trace st_running ++ pre ++
            [EvPopen (script_path (workspace st_running) (mark_running 100 task0))
                     (worktree_path (workspace st_running) (mark_running 100 task0))] ∧
      RUNNING_AGENTS (start_task env_worktree_exists k0 st_running).2
        = RUNNING_AGENTS st_running) ∨
     ((start_task env_worktree_exists k0 st_running).1 = true ∧
      ∃ p, Popen_spawn env_worktree_exists
             (script_path (workspace st_running) (mark_running 100 task0))
             (worktree_path (workspace st_running) (mark_running 100 task0))
           = Returns p ∧
           trace (start_task env_worktree_exists k0 st_running).2
             = trace st_running ++ pre ++
                 [EvPopen (script_path (workspace st_running) (mark_running 100 task0))
                          (worktree_path (workspace st_running) (mark_running 100 task0))] ∧
           RUNNING_AGENTS (start_task env_worktree_exists k0 st_running).2
             = <[id (mark_running 100 task0) := mkPopen p]>
                 (RUNNING_AGENTS st_running))).
Proof.
  apply (start_spawns_at_most_once env_worktree_exists k0 st_running
           (mark_running 100 task0)).
  by vm_compute.
Defined.

(** ** Start followed by stop or status *)

(** X14. A task stored under its own id that was started can be stopped
    and observed: after a successful start the table holds the spawned
    process under the key that [stop_task] and [check_task_status] use, so
    a stop whose signal is delivered returns [True] and signals that
    process, and a status that finds the process ended reports completed. *)
Theorem started_task_is_tracked env k st t st' :
  tasks st !! k = Some t → id t = k →
  start_task env k st = (true, st') →
  ∃ p, RUNNING_AGENTS st' !! k = Some (mkPopen p) ∧
       tasks st' !! k = Some (mark_running (datetime_now env) t) ∧
       (∀ env', killpg env' p = Returns tt →
                (stop_task env' k st').1 = true ∧
                trace (stop_task env' k st').2 = trace st' ++ [EvKillpg p]) ∧
       (∀ env' rc, proc_poll env' p = Some rc →
                   ∃ v, (check_task_status env' k st').1 = TaskInfo v ∧
                        view_status v = completed ∧
                        view_started_at v = Some (datetime_now env) ∧
                        view_completed_at v = Some (datetime_now env')).
Proof.
  intros Hk Hid Hstart.
  destruct (start_task_found env k st t Hk) as (evs & [(p & _ & Hs & _)|(e & _ & Hs)]);
    rewrite Hstart in Hs; simplify_eq.
  exists p. simpl. rewrite lookup_insert_eq, lookup_alter_eq, Hk. simpl.
  split_and!; [done|done| |].
  - intros env' Hkill. unfold stop_task. simpl.
    rewrite lookup_insert_eq, lookup_alter_eq, Hk. simpl. by rewrite Hkill.
  - intros env' rc Hpoll. unfold check_task_status. simpl.
    rewrite lookup_insert_eq, lookup_alter_eq, Hk. simpl. rewrite Hpoll.
    by eexists.
Qed.

Lemma started_task_is_tracked_witness :
  ∃ p, RUNNING_AGENTS st_running !! k0 = Some (mkPopen p) ∧
       tasks st_running !! k0 = Some (mark_running (datetime_now env_ok) task0) ∧
       (∀ env', killpg env' p = Returns tt →
                (stop_task env' k0 st_running).1 = true ∧
                trace (stop_task env' k0 st_running).2
                  = trace st_running ++ [EvKillpg p]) ∧
       (∀ env' rc, proc_poll env' p = Some rc →
                   ∃ v, (check_task_status env' k0 st_running).1 = TaskInfo v ∧
                        view_status v = completed ∧
                        view_started_at v = Some (datetime_now env_ok) ∧
                        view_completed_at v = Some (datetime_now env')).
Proof.
  apply (started_task_is_tracked env_ok k0 st_created task0 st_running);
    by vm_compute.
Defined.

(** X15. [_start_agent] files the process under [task.id], while stop and
    status look it up under the key of the store.  For a record that the
    file holds under a key other than its id, a successful start therefore
    leaves the key without entry: stop under that key returns [False] and
    status never completes the task, although its status is running. *)
Theorem mismatched_key_is_never_tracked env k st t st' :
  tasks st !! k = Some t → id t ≠ k → RUNNING_AGENTS st !! k = None →
  start_task env k st = (true, st') →
  RUNNING_AGENTS st' !! k = None ∧
  is_Some (RUNNING_AGENTS st' !! id t) ∧
  (status <$> tasks st' !! k) = Some running ∧
  ∀ env', stop_task env' k st' = (false, st') ∧
          (check_task_status env' k st').2 = st'.
Proof.
  intros Hk Hid Hr Hstart.
  destruct (start_task_found env k st t Hk) as (evs & [(p & _ & Hs & _)|(e & _ & Hs)]);
    rewrite Hstart in Hs; simplify_eq.
  assert (Hr' : RUNNING_AGENTS (started env k t p evs st) !! k = None).
  { simpl. by rewrite lookup_insert_ne. }
  split_and!; [done| | |].
  - simpl. by rewrite lookup_insert_eq.
  - simpl. by rewrite lookup_alter_eq, Hk.
  - intros env'. by destruct (untracked_status_and_stop env' k _ Hr').
Qed.

Lemma mismatched_key_is_never_tracked_witness :
  RUNNING_AGENTS st_mismatched_started !! py "task-ffffffff" = None ∧
  is_Some (RUNNING_AGENTS st_mismatched_started !! id task0) ∧
  (status <$> tasks st_mismatched_started !! py "task-ffffffff") = Some running ∧
  stop_task env_ok (py "task-ffffffff") st_mismatched_started
    = (false, st_mismatched_started) ∧
  (check_task_status env_exited (py "task-ffffffff") st_mismatched_started).2
    = st_mismatched_started.
Proof.
  destruct (mismatched_key_is_never_tracked env_ok (py "task-ffffffff") st_mismatched
              task0 st_mismatched_started) as (H1 & H2 & H3 & H4);
    [by vm_compute..|].
  split_and!; [exact H1|exact H2|exact H3|apply H4|apply H4].
Defined.

(** ** Creation *)

(** X16. [create_task] does not look whether the id is taken: the new
    record, without time stamps and error, is put under the new id and
    saved, the table and every other record stay as they are.  With an
    unused id the store grows by one record; with a used id the earlier
    record is replaced and a table entry under that id is kept. *)
Theorem create_stores_one_record lower_ext env d b st :
  let r := create_task lower_ext env d b st in
  id r.1 = new_task_id env ∧ description r.1 = d ∧
  started_at r.1 = None ∧ completed_at r.1 = None ∧
  error r.1 = None ∧ pr_url r.1 = None ∧
  tasks r.2 !! new_task_id env = Some r.1 ∧
  (∀ k, k ≠ new_task_id env → tasks r.2 !! k = tasks st !! k) ∧
  RUNNING_AGENTS r.2 = RUNNING_AGENTS st ∧
  tasks_file r.2 = Records (tasks r.2) ∧
  trace r.2 = trace st ∧
  (tasks st !! new_task_id env = None → size (tasks r.2) = S (size (tasks st))) ∧
  (is_Some (tasks st !! new_task_id env) → size (tasks r.2) = size (tasks st)).
Proof.
  cbv zeta. simpl. split_and!; try done.
  - apply lookup_insert_eq.
  - intros k Hne. by rewrite lookup_insert_ne.
  - intros Hfresh. by apply map_size_insert_None.
  - intros [t Ht]. by eapply map_size_insert_Some.
Qed.

Lemma create_stores_one_record_witness :
  size (tasks (create_task lower_plain env_ok (py "write docs") None st_init).2)
    = S (size (tasks st_init)) ∧
  size (tasks (create_task lower_plain env_ok (py "write docs") None st_running).2)
    = size (tasks st_running).
Proof.
  split.
  - apply (create_stores_one_record lower_plain env_ok (py "write docs") None st_init).
    reflexivity.
  - apply (create_stores_one_record lower_plain env_ok (py "write docs") None st_running).
    vm_compute. by eexists.
Defined.

(** The id of the running task comes up again: the new pending record takes
    its place, and the process of the replaced task is now the entry of a
    pending task. *)
Example create_over_running_task :
  let st' := (create_task lower_plain env_ok (py "write docs") None st_running).2 in
  (status <$> tasks st' !! k0) = Some pending ∧
  (description <$> tasks st' !! k0) = Some (py "write docs") ∧
  RUNNING_AGENTS st' !! k0 = Some (mkPopen 4242).
Proof. by vm_compute. Qed.

(** ** Selection and branch names *)

Lemma same_modulo_case_map d1 d2 :
  same_modulo_case d1 d2 → map ascii_lower d1 = map ascii_lower d2.
Proof. induction 1; simpl; congruence. Qed.

Lemma ascii_lower_space c : ascii_lower c = 32 ↔ c = 32.
Proof.
  unfold ascii_lower, is_ascii_upper.
  destruct (65 <=? c) eqn:H1; destruct (c <=? 90) eqn:H2; simpl;
    [|tauto|tauto|tauto].
  apply N.leb_le in H1. apply N.leb_le in H2. lia.
Qed.

Lemma ascii_lower_replace_space d :
  map ascii_lower (replace_char 32 45 d) = replace_char 32 45 (map ascii_lower d).
Proof.
  unfold replace_char. rewrite !map_map. apply map_ext. intros c.
  destruct (c =? 32) eqn:Hc.
  - apply N.eqb_eq in Hc as ->. done.
  - destruct (ascii_lower c =? 32) eqn:Hl; [|done].
    apply N.eqb_eq in Hl. apply (proj1 (ascii_lower_space c)) in Hl.
    apply N.eqb_neq in Hc. congruence.
Qed.

Lemma forallb_plain_replace_take d :
  forallb plain_char d = true →
  forallb plain_char (replace_char 32 45 (take 30 d)) = true.
Proof.
  intros Hd. apply forallb_forall. intros c Hin.
  unfold replace_char in Hin. apply in_map_iff in Hin as (c0 & <- & Hin).
  destruct (c0 =? 32); [done|].
  rewrite forallb_forall in Hd. apply Hd.
  apply list_elem_of_In. apply list_elem_of_In in Hin.
  by eapply (subseteq_take 30 d).
Qed.

Lemma same_modulo_case_b_true d1 : ∀ d2,
  same_modulo_case_b d1 d2 = true → same_modulo_case d1 d2.
Proof.
  induction d1 as [|a r1 IH]; intros [|b r2]; simpl; try done.
  - constructor.
  - intros [Hab Hr]%andb_true_iff. constructor; [by apply N.eqb_eq|by apply IH].
Qed.

(** X17. Case does not matter: two descriptions made of ASCII characters
    and CJK ideographs that are equal up to the case of their ASCII letters
    are given the same agent, and the same derived branch. *)
Theorem selection_ignores_case lower_ext env st d1 d2 :
  forallb plain_char d1 = true → forallb plain_char d2 = true →
  same_modulo_case d1 d2 →
  select_agent lower_ext d1 = select_agent lower_ext d2 ∧
  branch (create_task lower_ext env d1 None st).1
    = branch (create_task lower_ext env d2 None st).1.
Proof.
  intros H1 H2 Hsame. apply same_modulo_case_map in Hsame.
  split.
  - unfold select_agent, lower. by rewrite !lower_at_plain, Hsame.
  - unfold create_task, lower, slice_to. cbn [fst branch]. f_equal.
    rewrite !lower_at_plain by by apply forallb_plain_replace_take.
    by rewrite !ascii_lower_replace_space, <- !firstn_map, Hsame.
Qed.

Lemma selection_ignores_case_witness :
  select_agent lower_plain (py "Fix The LOGIN Api for 中文 users")
    = select_agent lower_plain (py "fix the login api for 中文 users") ∧
  branch (create_task lower_plain env_ok (py "Fix The LOGIN Api for 中文 users")
            None st_init).1
    = branch (create_task lower_plain env_ok (py "fix the login api for 中文 users")
                None st_init).1.
Proof.
  apply (selection_ignores_case lower_plain env_ok st_init);
    [by vm_compute|by vm_compute|].
  apply same_modulo_case_b_true. by vm_compute.
Defined.

(** X18. The result of [select_agent] tells which keywords occur in the
    lowercased description: claude exactly when a frontend/UI keyword
    occurs; glm exactly when a locale keyword occurs and no frontend/UI or
    backend/data keyword does; codex in every other case. *)
Theorem select_agent_characterised lower_ext d :
  let low := lower lower_ext d in
  (select_agent lower_ext d = claude ↔ matches frontend_keywords low = true) ∧
  (select_agent lower_ext d = glm ↔
     matches frontend_keywords low = false ∧ matches backend_keywords low = false ∧
     matches locale_keywords low = true) ∧
  (select_agent lower_ext d = codex ↔
     matches frontend_keywords low = false ∧
     (matches backend_keywords low = true ∨ matches locale_keywords low = false)).
Proof.
  cbv zeta. unfold select_agent.
  fold frontend_keywords. fold (matches frontend_keywords (lower lower_ext d)).
  fold backend_keywords. fold (matches backend_keywords (lower lower_ext d)).
  fold locale_keywords. fold (matches locale_keywords (lower lower_ext d)).
  destruct (matches frontend_keywords _), (matches backend_keywords _),
    (matches locale_keywords _); split_and!; split; try done;
    intros H; try done; try (split; [done|]; auto); destruct H as [? H'];
    try done; try (destruct H'; done).
Qed.

Lemma replace_char_idempotent old new s :
  old ≠ new → replace_char old new (replace_char old new s) = replace_char old new s.
Proof.
  intros Hne. unfold replace_char. rewrite map_map. apply map_ext. intros c.
  destruct (c =? old) eqn:Hc; [|by rewrite Hc].
  destruct (new =? old) eqn:Hn; [|done]. apply N.eqb_eq in Hn. congruence.
Qed.

(** X19. The worktree directory depends on the branch only through the
    replacement of "/" by "_", which maps different branches to one name: a
    task created with the explicit branch "feat_..." gets the directory of
    the task whose derived branch is "feat/...", although their branches
    differ; a branch without "/" is its own directory name. *)
Theorem worktree_directories_collide lower_ext env env' d d' st st' ws :
  let t1 := (create_task lower_ext env d None st).1 in
  let t2 := (create_task lower_ext env' d'
               (Some (replace_char 47 95 (branch t1))) st').1 in
  branch t2 = replace_char 47 95 (branch t1) ∧
  branch t2 ≠ branch t1 ∧
  worktree_path ws t2 = worktree_path ws t1 ∧
  (∀ t, 47 ∉ branch t → worktree_path ws t = ws // py ".agent-cluster" // py "worktrees"
                                              // branch t).
Proof.
  cbv zeta.
  set (L := lower lower_ext (replace_char 32 45 (slice_to 30 d))).
  assert (H1 : branch (create_task lower_ext env d None st).1 = py "feat/" ++ L)
    by reflexivity.
  assert (Hr : replace_char 47 95 (py "feat/" ++ L)
               = py "feat_" ++ replace_char 47 95 L) by reflexivity.
  assert (H2 : branch (create_task lower_ext env' d'
                         (Some (replace_char 47 95 (py "feat/" ++ L))) st').1
               = py "feat_" ++ replace_char 47 95 L) by reflexivity.
  unfold worktree_path. rewrite !H1, !H2, Hr. clearbody L.
  split_and!.
  - done.
  - intros H. apply (f_equal (λ l, l !! 4%nat)) in H. discriminate H.
  - f_equal. rewrite <- Hr. by apply replace_char_idempotent.
  - intros t Hno. f_equal.
    unfold replace_char. induction (branch t) as [|c b IH]; [done|]. simpl.
    apply not_elem_of_cons in Hno as [Hc Hb]. rewrite IH by done.
    destruct (c =? 47) eqn:E; [|done]. apply N.eqb_eq in E. congruence.
Qed.

(** ** Signals *)

(** X20. [delete_task] evaluates the signalling call
    [os.killpg(os.getpgid(pid), SIGTERM)] once, for the process of the
    task, when the task has a table entry, and makes no such call
    otherwise.  When the call returns, so that the signal was sent, the
    entry goes with the record; when the call raises, no signal having
    been delivered, the record goes and the entry stays behind. *)
Theorem delete_signals_tracked_process env k st t :
  tasks st !! k = Some t →
  (RUNNING_AGENTS st !! k = None →
   trace (delete_task env k st).2 = trace st ∧
   RUNNING_AGENTS (delete_task env k st).2 = RUNNING_AGENTS st) ∧
  (∀ proc, RUNNING_AGENTS st !! k = Some proc →
     trace (delete_task env k st).2 = trace st ++ [EvKillpg (pid proc)] ∧
     (killpg env (pid proc) = Returns tt →
      RUNNING_AGENTS (delete_task env k st).2 = delete k (RUNNING_AGENTS st) ∧
      RUNNING_AGENTS (delete_task env k st).2 !! k = None ∧
      tasks (delete_task env k st).2 !! k = None) ∧
     (∀ e, killpg env (pid proc) = Raises e →
           RUNNING_AGENTS (delete_task env k st).2 = RUNNING_AGENTS st ∧
           RUNNING_AGENTS (delete_task env k st).2 !! k = Some proc ∧
           tasks (delete_task env k st).2 !! k = None)).
Proof.
  intros Hk. unfold delete_task, stop_task. rewrite Hk. split.
  - intros Hr. by rewrite Hr.
  - intros proc Hr. rewrite Hr.
    destruct (killpg env (pid proc)) as [[]|e]; simpl; split_and!; try done.
    + intros _. split_and!; [done|apply lookup_delete_eq|apply lookup_delete_eq].
    + intros e' _. split_and!; [done|done|apply lookup_delete_eq].
Qed.

Lemma delete_signals_tracked_process_witness :
  trace (delete_task env_ok k0 st_running).2 = trace st_running ++ [EvKillpg 4242] ∧
  RUNNING_AGENTS (delete_task env_ok k0 st_running).2
    = delete k0 (RUNNING_AGENTS st_running) ∧
  RUNNING_AGENTS (delete_task env_group_gone k0 st_running).2 !! k0
    = Some (mkPopen 4242) ∧
  trace (delete_task env_ok k0 st_created).2 = trace st_created.
Proof.
  destruct (delete_signals_tracked_process env_ok k0 st_running (mark_running 100 task0))
    as [_ H]; [by vm_compute|].
  destruct (H (mkPopen 4242)) as (Htr & Hok & _); [by vm_compute|].
  destruct (delete_signals_tracked_process env_group_gone k0 st_running
              (mark_running 100 task0)) as [_ Hg]; [by vm_compute|].
  destruct (Hg (mkPopen 4242)) as (_ & _ & Hraise); [by vm_compute|].
  destruct (delete_signals_tracked_process env_ok k0 st_created task0) as [H0 _];
    [by vm_compute|].
  split_and!; [exact Htr|by apply Hok| |by apply H0].
  by apply (Hraise (py "[Errno 3] No such process")).
Defined.

(** ** The prompt *)

(** X21. The prompt is made from the description and the branch only, both
    put in as they are: they occur in it verbatim, tasks with the same
    description and branch get the same prompt whatever their id, agent or
    status, and for one branch different descriptions give different
    prompts. *)
Theorem prompt_embeds_description_and_branch t :
  str_in (description t) (_generate_prompt t) = true ∧
  str_in (branch t) (_generate_prompt t) = true ∧
  (∀ t', description t' = description t → branch t' = branch t →
         _generate_prompt t' = _generate_prompt t) ∧
  (∀ t', branch t' = branch t → _generate_prompt t' = _generate_prompt t →
         description t' = description t).
Proof.
  split_and!.
  - unfold _generate_prompt. apply str_in_app.
  - unfold _generate_prompt.
    rewrite (app_assoc (py "# 任务: ")), (app_assoc _ [10; 10]),
      (app_assoc _ (py "## 分支")), (app_assoc _ [10]).
    apply str_in_app.
  - intros t' Hd Hb. unfold _generate_prompt. by rewrite Hd, Hb.
  - intros t' Hb Hp. unfold _generate_prompt in Hp. rewrite Hb in Hp.
    apply app_inv_head in Hp.
    assert (Hlen : length (description t') = length (description t)).
    { apply (f_equal length) in Hp. rewrite !length_app in Hp. lia. }
    by apply app_inj_1 in Hp as [-> _].
Qed.

(** ** Tasks without a table entry *)

Lemma step_untracked_frozen lower_ext env op st k t :
  keys_match (tasks st) → persisted st → op_ok env op st →
  tasks st !! k = Some t → RUNNING_AGENTS st !! k = None →
  op ≠ OpStart k → op ≠ OpDelete k →
  tasks (step lower_ext env op st) !! k = Some t ∧
  RUNNING_AGENTS (step lower_ext env op st) !! k = None.
Proof.
  intros Hm Hp Hok Hk Hr Hns Hnd. destruct op as [d b|k1|k1|k1|k1|]; simpl.
  - destruct Hok as [Hfresh _]. simpl in *.
    rewrite lookup_insert_ne by congruence. done.
  - assert (k1 ≠ k) by congruence.
    destruct (start_task_effect env k1 st) as [[-> _]|(t1 & evs & Hk1 & [[p ->]|[e ->]])];
      simpl; [done| |].
    + rewrite (Hm _ _ Hk1). by rewrite lookup_alter_ne, lookup_insert_ne.
    + by rewrite lookup_alter_ne.
  - destruct (decide (k1 = k)) as [->|Hne].
    + by destruct (untracked_status_and_stop env k st Hr) as [-> _].
    + destruct (check_task_status_other env k1 st k) as [-> ->]; done.
  - destruct (decide (k1 = k)) as [->|Hne].
    + by destruct (untracked_status_and_stop env k st Hr) as [_ ->].
    + destruct (stop_task_effect env k1 st)
        as [[_ [evs ->]]|(t1 & proc & _ & _ & _ & ->)]; [done|].
      simpl. by rewrite lookup_alter_ne, lookup_delete_ne.
  - assert (k1 ≠ k) by congruence.
    unfold delete_task. destruct (tasks st !! k1) eqn:Hk1; [|done]. simpl.
    rewrite lookup_delete_ne by done.
    destruct (stop_task_effect env k1 st)
      as [[_ [evs ->]]|(t1 & proc & _ & _ & _ & ->)]; [done|].
    simpl. by rewrite lookup_alter_ne, lookup_delete_ne.
  - unfold persisted in Hp. simpl. by rewrite Hp, lookup_empty.
Qed.

Lemma run_untracked_frozen lower_ext l : ∀ st k t,
  reachable lower_ext st → run_ok lower_ext l st →
  Forall (λ eo, eo.2 ≠ OpStart k ∧ eo.2 ≠ OpDelete k) l →
  tasks st !! k = Some t → RUNNING_AGENTS st !! k = None →
  tasks (run lower_ext l st) !! k = Some t ∧
  RUNNING_AGENTS (run lower_ext l st) !! k = None.
Proof.
  induction l as [|[env op] l IH]; simpl; intros st k t Hr Hok Hall Hk Hra; [done|].
  destruct Hok as [Hok Hoks]. apply Forall_cons in Hall as [[Hns Hnd] Hall].
  simpl in *.
  destruct (reachable_invariants lower_ext st Hr) as (Hm & Hp & _).
  destruct (step_untracked_frozen lower_ext env op st k t Hm Hp Hok Hk Hra Hns Hnd)
    as [Hk1 Hra1].
  apply IH; [by apply reachable_step|done..].
Qed.

(** X5. A stop that succeeded stays in force until the task is started
    again or deleted: after any sequence of other operations (on this or
    other tasks, restarts included) a stop of the task returns [False] and
    changes nothing, and status answers failed with the error "Stopped by
    user" and changes nothing, whatever the poll would say. *)
Theorem stop_is_final lower_ext env k st st' l :
  reachable lower_ext st → stop_task env k st = (true, st') →
  run_ok lower_ext l st' →
  Forall (λ eo, eo.2 ≠ OpStart k ∧ eo.2 ≠ OpDelete k) l →
  ∀ env', stop_task env' k (run lower_ext l st') = (false, run lower_ext l st') ∧
          ∃ v, check_task_status env' k (run lower_ext l st')
                 = (TaskInfo v, run lower_ext l st') ∧
               view_status v = failed ∧
               view_error v = Some (py "Stopped by user").
Proof.
  intros Hreach Hstop Hok Hall env'.
  destruct (stop_task_effect env k st) as [[Hf _]|(t & proc & Hk & Hr & _ & Hs)];
    [by rewrite Hstop in Hf|].
  rewrite Hstop in Hs. simplify_eq.
  assert (Hreach' : reachable lower_ext (stopped_state k proc st)).
  { replace (stopped_state k proc st) with (step lower_ext env (OpStop k) st)
      by (simpl; by rewrite Hstop).
    by apply reachable_step. }
  destruct (run_untracked_frozen lower_ext l (stopped_state k proc st) k
              (mark_failed (py "Stopped by user") t) Hreach' Hok Hall) as [Hk' Hr'].
  { simpl. by rewrite lookup_alter_eq, Hk. }
  { simpl. apply lookup_delete_eq. }
  unfold stop_task, check_task_status. rewrite Hk', Hr'. simpl.
  split; [done|]. by eexists.
Qed.

Lemma ops_without_start_ok st :
  run_ok lower_plain ops_without_start st ∧
  Forall (λ eo : Env * Op, eo.2 ≠ OpStart k0 ∧ eo.2 ≠ OpDelete k0) ops_without_start.
Proof.
  split; [by repeat split|]. repeat constructor; done.
Qed.

Lemma stop_is_final_witness :
  stop_task env_ok k0 (run lower_plain ops_without_start st_stopped)
    = (false, run lower_plain ops_without_start st_stopped) ∧
  ∃ v, check_task_status env_exited k0 (run lower_plain ops_without_start st_stopped)
         = (TaskInfo v, run lower_plain ops_without_start st_stopped) ∧
       view_status v = failed ∧
       view_error v = Some (py "Stopped by user").
Proof.
  destruct (ops_without_start_ok st_stopped) as [Hok Hall].
  destruct (stop_is_final lower_plain env_ok k0 st_running st_stopped
              ops_without_start st_running_reachable eq_refl Hok Hall env_ok)
    as [H1 _].
  destruct (stop_is_final lower_plain env_ok k0 st_running st_stopped
              ops_without_start st_running_reachable eq_refl Hok Hall env_exited)
    as [_ H2].
  by split.
Defined.

(** X6. The end of a process is taken note of once: after the call of
    [check_task_status] that made the task completed, and until the task
    is started again or deleted, every call for the task, also after any
    sequence of other operations, returns that same completed view and
    changes nothing, whatever the world. *)
Theorem completion_is_reported_once lower_ext env k st t proc rc l :
  reachable lower_ext st →
  tasks st !! k = Some t → status t = running →
  RUNNING_AGENTS st !! k = Some proc → proc_poll env (pid proc) = Some rc →
  run_ok lower_ext l (check_task_status env k st).2 →
  Forall (λ eo, eo.2 ≠ OpStart k ∧ eo.2 ≠ OpDelete k) l →
  (check_task_status env k st).1
    = TaskInfo (make_view (mark_completed (datetime_now env) t)) ∧
  ∀ env', check_task_status env' k (run lower_ext l (check_task_status env k st).2)
          = ((check_task_status env k st).1,
             run lower_ext l (check_task_status env k st).2).
Proof.
  intros Hreach Hk Hs Hr Hp Hok Hall.
  assert (Hreach' : reachable lower_ext (check_task_status env k st).2).
  { change (check_task_status env k st).2 with (step lower_ext env (OpStatus k) st).
    by apply reachable_step. }
  assert (Hc : check_task_status env k st
               = (TaskInfo (make_view (mark_completed (datetime_now env) t)),
                  completed_state (datetime_now env) k st)).
  { unfold check_task_status. by rewrite Hk, Hs, Hr, Hp. }
  rewrite Hc in *. simpl in *. split; [done|]. intros env'.
  destruct (run_untracked_frozen lower_ext l _ k
              (mark_completed (datetime_now env) t) Hreach' Hok Hall) as [Hk' Hr'].
  { simpl. by rewrite lookup_alter_eq, Hk. }
  { simpl. apply lookup_delete_eq. }
  unfold check_task_status. by rewrite Hk', Hr'.
Qed.

Lemma completion_is_reported_once_witness :
  (check_task_status env_exited k0 st_running).1
    = TaskInfo (make_view (mark_completed (datetime_now env_exited)
                             (mark_running 100 task0))) ∧
  check_task_status env_ok k0
    (run lower_plain ops_without_start (check_task_status env_exited k0 st_running).2)
  = ((check_task_status env_exited k0 st_running).1,
     run lower_plain ops_without_start (check_task_status env_exited k0 st_running).2).
Proof.
  destruct (ops_without_start_ok (check_task_status env_exited k0 st_running).2)
    as [Hok Hall].
  destruct (completion_is_reported_once lower_plain env_exited k0 st_running
              (mark_running 100 task0) (mkPopen 4242) 0%Z ops_without_start)
    as [H1 H2]; [exact st_running_reachable|by vm_compute..|exact Hok|exact Hall|].
  split; [exact H1|apply H2].
Defined.

(** After a new start the task can be stopped, and completes, once more. *)
Example start_reopens_task :
  (stop_task env_ok k0 (start_task env_ok k0 st_stopped).2).1 = true ∧
  (view_completed_at <$>
     match (check_task_status (with_now 300 env_exited) k0
              (start_task (with_now 200 env_ok) k0 st_completed).2).1 with
     | TaskInfo v => Some v
     | TaskNotFound => None
     end) = Some (Some 300%Z).
Proof. by vm_compute. Qed.
